(** * Q-learning swarm controller: a shallow embedding of
      [controllers/q_swarm_controller/q_swarm_controller.cpp]

    The controller is one C++ class whose methods mutate the object's
    fields, drive the wheel actuator and talk to a policy server over a
    stream socket.  The embedding keeps that shape:

    - [int] fields are [Z] with the 32-bit wrap-around written out;
    - [float] values are IEEE-754 binary32 numbers ([spec_float] with
      precision 24 and maximal exponent 128), with the operations of
      [SpecFloat], so every arithmetic step rounds as the machine does;
    - [std::string] is [string]; [find], [find_last_of], [substr] and
      [std::stoi] are written out, [std::stoi] with its two exceptions;
    - the methods live in a state-and-exception monad over a [World]
      holding the object, the results the operating system will give to
      the next system calls, and the trace of commands issued so far;
    - what belongs to the simulation host (the scalar type [Real], vector
      length, stream formatting of a [float]) and to the compiler (the
      order in which two arguments of a call are evaluated) is an
      interface, [Platform]; an attribute of the configuration node is
      absent, readable or unreadable, and reading an unreadable one
      throws the host's exception. *)

From Stdlib Require Import ZArith List String Ascii Bool Lia.
From Stdlib Require Import DecimalString.
From Stdlib Require DecimalPos.
From Stdlib Require Import Floats.SpecFloat.
Import ListNotations.
Local Open Scope string_scope.
Local Open Scope Z_scope.

(** ** Machine integers *)

Module Int32.

Definition INT_MIN : Z := -2147483648.
Definition INT_MAX : Z := 2147483647.

Definition in_range (z : Z) : Prop := INT_MIN <= z <= INT_MAX.

Definition in_rangeb (z : Z) : bool := (INT_MIN <=? z) && (z <=? INT_MAX).

(** Two's complement reduction, as the hardware performs [x++] on an [int]. *)
Definition wrap (z : Z) : Z := (z + 2147483648) mod 4294967296 - 2147483648.

Definition incr (z : Z) : Z := wrap (z + 1).

End Int32.

(** ** Single-precision floats *)

Module F32.

Definition prec : Z := 24.
Definition emax : Z := 128.

Definition float : Type := spec_float.

Definition add : float -> float -> float := SFadd prec emax.
Definition mul : float -> float -> float := SFmul prec emax.
Definition div : float -> float -> float := SFdiv prec emax.
Definition opp : float -> float := SFopp.
Definition ltb : float -> float -> bool := SFltb.
Definition eqb : float -> float -> bool := SFeqb.

(** [(float) n] for an [int] n. *)
Definition of_Z (n : Z) : float := binary_normalize prec emax n 0 false.

(** The literals of the source, by their bit patterns. *)
Definition zero      : float := S754_zero false.                   (* 0.0f   0x00000000 *)
Definition half      : float := S754_finite false 8388608 (-24).   (* 0.5f   0x3F000000 *)
Definition ten       : float := S754_finite false 10485760 (-20).  (* 10.0f  0x41200000 *)
Definition minus_five : float := S754_finite true 10485760 (-21).  (* -5.0f  0xC0A00000 *)
Definition minus_tenth : float := S754_finite true 13421773 (-27). (* -0.1f  0xBDCCCCCD *)
Definition nine_tenths : float := S754_finite false 15099494 (-24). (* 0.9f  0x3F666666 *)
Definition tenth     : float := S754_finite false 13421773 (-27).  (* 0.1f   0x3DCCCCCD *)
Definition hundredth : float := S754_finite false 10737418 (-30).  (* 0.01f  0x3C23D70A *)
Definition eighteen  : float := S754_finite false 9437184 (-19).   (* 18.0f  0x41900000 *)

End F32.

(** ** Strings: the [std::string] operations the controller uses *)

Module Str.

(** The exceptions the controller can meet: the two [std::stoi] and
    [substr] throw, and the host's [CARGoSException]. *)
Inductive exn : Type :=
| invalid_argument
| out_of_range
| CARGoSException.

Definition code (c : ascii) : Z := Z.of_N (N_of_ascii c).

Definition isdigit (c : ascii) : bool := (48 <=? code c) && (code c <=? 57).

(** [isspace] in the "C" locale: space, \t, \n, \v, \f, \r. *)
Definition isspace (c : ascii) : bool :=
  (code c =? 32) || ((9 <=? code c) && (code c <=? 13)).

Definition digit_value (c : ascii) : Z := code c - 48.

Fixpoint mem (c : ascii) (set : string) : bool :=
  match set with
  | EmptyString => false
  | String d set' => Ascii.eqb c d || mem c set'
  end.

(** [s.find(c)] counted from position [i]: the first occurrence. *)
Fixpoint find_from (c : ascii) (s : string) (i : nat) : option nat :=
  match s with
  | EmptyString => None
  | String d s' => if Ascii.eqb d c then Some i else find_from c s' (S i)
  end.

Definition find (c : ascii) (s : string) : option nat := find_from c s 0.

(** [s.find_last_of(set)] counted from position [i]: the LAST position
    holding a character of [set]; [None] is [std::string::npos]. *)
Fixpoint find_last_of_from (set : string) (s : string) (i : nat) : option nat :=
  match s with
  | EmptyString => None
  | String d s' =>
      match find_last_of_from set s' (S i) with
      | Some j => Some j
      | None => if mem d set then Some i else None
      end
  end.

Definition find_last_of (set : string) (s : string) : option nat :=
  find_last_of_from set s 0.

Fixpoint drop (n : nat) (s : string) : string :=
  match n, s with
  | O, _ => s
  | S n', String _ s' => drop n' s'
  | S _, EmptyString => EmptyString
  end.

(** [s.substr(pos)]: throws [out_of_range] when [pos > s.size()]. *)
Definition substr (s : string) (pos : nat) : exn + string :=
  if (pos <=? String.length s)%nat then inr (drop pos s) else inl out_of_range.

Fixpoint skip_spaces (s : string) : string :=
  match s with
  | String c s' => if isspace c then skip_spaces s' else s
  | EmptyString => s
  end.

(** The value of the longest prefix of decimal digits, most significant first. *)
Fixpoint digits_value (acc : Z) (s : string) : Z :=
  match s with
  | String c s' => if isdigit c then digits_value (10 * acc + digit_value c) s' else acc
  | EmptyString => acc
  end.

Definition starts_with_digit (s : string) : bool :=
  match s with
  | String c _ => isdigit c
  | EmptyString => false
  end.

(** [std::stoi(s)] in base 10: skip white space, read an optional sign
    and the longest run of digits; no digit at all throws
    [std::invalid_argument], a value that does not fit an [int] throws
    [std::out_of_range]; whatever follows the digits is ignored. *)
Definition stoi (s : string) : exn + Z :=
  let s1 := skip_spaces s in
  let '(negative, s2) :=
    match s1 with
    | String "-" r => (true, r)
    | String "+" r => (false, r)
    | _ => (false, s1)
    end in
  if starts_with_digit s2 then
    let v := digits_value 0 s2 in
    let v := if negative then - v else v in
    if Int32.in_rangeb v then inr v else inl out_of_range
  else inl invalid_argument.

(** [oss << n] for an [int]: plain decimal. *)
Definition show_int (n : Z) : string := NilZero.string_of_int (Z.to_int n).

(** A [char] buffer read as a C string stops at the first NUL. *)
Fixpoint c_str (s : string) : string :=
  match s with
  | EmptyString => EmptyString
  | String c s' => if Ascii.eqb c zero then EmptyString else String c (c_str s')
  end.

(** The first [n] characters of [s]. *)
Fixpoint take (n : Z) (s : string) : string :=
  match s with
  | EmptyString => EmptyString
  | String c s' => if 0 <? n then String c (take (n - 1) s') else EmptyString
  end.

Definition newline : ascii := ascii_of_nat 10.

(** [if (!msg.empty() && msg.back() == '\n') msg.pop_back();] *)
Fixpoint strip_newline (s : string) : string :=
  match s with
  | EmptyString => EmptyString
  | String c EmptyString => if Ascii.eqb c newline then EmptyString else s
  | String c s' => String c (strip_newline s')
  end.

Definition empty (s : string) : bool :=
  match s with EmptyString => true | _ => false end.

End Str.

(** ** The simulation host's side of the interface

    [Real] is the host's scalar type (ARGoS builds it as [double] or as
    [float]); [CVector2] is a pair of [Real] coordinates.  The conversions
    between [float] and [Real] that C++ inserts silently, the comparison
    on [Real], the length of a difference of vectors and the text a
    stream prints for a [float] are taken as they come.  So is the order
    in which the compiler evaluates the two arguments [Init] passes as
    buffer and as default when it reads a goal coordinate: C++ leaves it
    unspecified. *)

Record CVector2 (R : Type) : Type := Vec2 { GetX : R; GetY : R }.
Arguments Vec2 {R} _ _.
Arguments GetX {R} _.
Arguments GetY {R} _.

Class Platform : Type := {
  Real : Type;
  Real_of_float : F32.float -> Real;
  float_of_Real : Real -> F32.float;
  Real_gtb : Real -> Real -> bool;
  (** [(a - b).Length()] *)
  Length_sub : CVector2 Real -> CVector2 Real -> Real;
  (** [oss << f] for a [float] *)
  show_float : F32.float -> string;
  (** in [GetNodeAttributeOrDefault(t_node, "goal_x",
      m_cGoalPosition.SetX(18.0f), m_cGoalPosition.GetX())] and in the
      like call for ["goal_y"], is [SetX] evaluated before [GetX]? *)
  buffer_argument_first : string -> bool
}.

(** An attribute of the configuration node, as [GetNodeAttributeOrDefault]
    (a function of the host) meets it: absent, readable with a value, or
    unreadable, in which case the call throws and the buffer holds what
    the failed read left in it. *)
Inductive Attribute (A : Type) : Type :=
| Absent
| Present (a : A)
| Malformed (residue : A).
Arguments Absent {A}.
Arguments Present {A} _.
Arguments Malformed {A} _.

Section Controller.

Context {platform : Platform}.

(** What the sensors show during one control tick. *)
Record Sensors : Type := {
  Position : CVector2 Real;   (* m_pcPositioning->GetReading().Position, X and Y *)
  Readings : list Real        (* m_pcProximity->GetReadings()[i].Value *)
}.

(** The values the next calls into the operating system and the C
    library will return, in order; a list that has run out answers with
    the call's failure value. *)
Record OS : Type := {
  socket_ret : list Z;        (* socket()  : descriptor, or -1 *)
  connect_ret : list Z;       (* connect() : 0 on success *)
  send_ret : list Z;          (* send()    : bytes sent, or -1 *)
  recv_ret : list string;     (* recv()    : the bytes read; none on error or close *)
  rand_ret : list N           (* rand()    : never negative *)
}.

(** Commands issued to the outside. *)
Inductive Event : Type :=
| SetLinearVelocity (left right : Real)
| Socket
| Connect (fd : Z)
| Sleep
| Send (fd : Z) (bytes : string)
| Recv (fd : Z)
| Close (fd : Z).

Definition is_traffic (e : Event) : bool :=
  match e with
  | Send _ _ | Recv _ => true
  | _ => false
  end.

(** The fields of the class (the three device pointers are the
    [Sensors] argument and the [SetLinearVelocity] event). *)
Record QSwarmController : Type := {
  m_strRobotId : string;
  m_nRobotIdNum : Z;
  m_cGoalPosition : CVector2 Real;
  m_nEpisode : Z;
  m_nSteps : Z;
  m_nMaxSteps : Z;
  m_nMaxEpisodes : Z;
  m_nSocket : Z;
  m_bConnected : bool;
  m_cPreviousPosition : CVector2 Real;
  m_fVelocity : F32.float;
  m_fCollisionThreshold : F32.float;
  m_fGoalThreshold : F32.float;
  m_bEpisodeDone : bool;
  m_fEpisodeReward : F32.float
}.

Definition set_strRobotId (v : string) (c : QSwarmController) :=
  Build_QSwarmController v (m_nRobotIdNum c) (m_cGoalPosition c) (m_nEpisode c)
    (m_nSteps c) (m_nMaxSteps c) (m_nMaxEpisodes c) (m_nSocket c) (m_bConnected c)
    (m_cPreviousPosition c) (m_fVelocity c) (m_fCollisionThreshold c)
    (m_fGoalThreshold c) (m_bEpisodeDone c) (m_fEpisodeReward c).
Definition set_nRobotIdNum (v : Z) (c : QSwarmController) :=
  Build_QSwarmController (m_strRobotId c) v (m_cGoalPosition c) (m_nEpisode c)
    (m_nSteps c) (m_nMaxSteps c) (m_nMaxEpisodes c) (m_nSocket c) (m_bConnected c)
    (m_cPreviousPosition c) (m_fVelocity c) (m_fCollisionThreshold c)
    (m_fGoalThreshold c) (m_bEpisodeDone c) (m_fEpisodeReward c).
Definition set_cGoalPosition (v : CVector2 Real) (c : QSwarmController) :=
  Build_QSwarmController (m_strRobotId c) (m_nRobotIdNum c) v (m_nEpisode c)
    (m_nSteps c) (m_nMaxSteps c) (m_nMaxEpisodes c) (m_nSocket c) (m_bConnected c)
    (m_cPreviousPosition c) (m_fVelocity c) (m_fCollisionThreshold c)
    (m_fGoalThreshold c) (m_bEpisodeDone c) (m_fEpisodeReward c).
Definition set_nEpisode (v : Z) (c : QSwarmController) :=
  Build_QSwarmController (m_strRobotId c) (m_nRobotIdNum c) (m_cGoalPosition c) v
    (m_nSteps c) (m_nMaxSteps c) (m_nMaxEpisodes c) (m_nSocket c) (m_bConnected c)
    (m_cPreviousPosition c) (m_fVelocity c) (m_fCollisionThreshold c)
    (m_fGoalThreshold c) (m_bEpisodeDone c) (m_fEpisodeReward c).
Definition set_nSteps (v : Z) (c : QSwarmController) :=
  Build_QSwarmController (m_strRobotId c) (m_nRobotIdNum c) (m_cGoalPosition c)
    (m_nEpisode c) v (m_nMaxSteps c) (m_nMaxEpisodes c) (m_nSocket c) (m_bConnected c)
    (m_cPreviousPosition c) (m_fVelocity c) (m_fCollisionThreshold c)
    (m_fGoalThreshold c) (m_bEpisodeDone c) (m_fEpisodeReward c).
Definition set_nMaxSteps (v : Z) (c : QSwarmController) :=
  Build_QSwarmController (m_strRobotId c) (m_nRobotIdNum c) (m_cGoalPosition c)
    (m_nEpisode c) (m_nSteps c) v (m_nMaxEpisodes c) (m_nSocket c) (m_bConnected c)
    (m_cPreviousPosition c) (m_fVelocity c) (m_fCollisionThreshold c)
    (m_fGoalThreshold c) (m_bEpisodeDone c) (m_fEpisodeReward c).
Definition set_nMaxEpisodes (v : Z) (c : QSwarmController) :=
  Build_QSwarmController (m_strRobotId c) (m_nRobotIdNum c) (m_cGoalPosition c)
    (m_nEpisode c) (m_nSteps c) (m_nMaxSteps c) v (m_nSocket c) (m_bConnected c)
    (m_cPreviousPosition c) (m_fVelocity c) (m_fCollisionThreshold c)
    (m_fGoalThreshold c) (m_bEpisodeDone c) (m_fEpisodeReward c).
Definition set_nSocket (v : Z) (c : QSwarmController) :=
  Build_QSwarmController (m_strRobotId c) (m_nRobotIdNum c) (m_cGoalPosition c)
    (m_nEpisode c) (m_nSteps c) (m_nMaxSteps c) (m_nMaxEpisodes c) v (m_bConnected c)
    (m_cPreviousPosition c) (m_fVelocity c) (m_fCollisionThreshold c)
    (m_fGoalThreshold c) (m_bEpisodeDone c) (m_fEpisodeReward c).
Definition set_bConnected (v : bool) (c : QSwarmController) :=
  Build_QSwarmController (m_strRobotId c) (m_nRobotIdNum c) (m_cGoalPosition c)
    (m_nEpisode c) (m_nSteps c) (m_nMaxSteps c) (m_nMaxEpisodes c) (m_nSocket c) v
    (m_cPreviousPosition c) (m_fVelocity c) (m_fCollisionThreshold c)
    (m_fGoalThreshold c) (m_bEpisodeDone c) (m_fEpisodeReward c).
Definition set_cPreviousPosition (v : CVector2 Real) (c : QSwarmController) :=
  Build_QSwarmController (m_strRobotId c) (m_nRobotIdNum c) (m_cGoalPosition c)
    (m_nEpisode c) (m_nSteps c) (m_nMaxSteps c) (m_nMaxEpisodes c) (m_nSocket c)
    (m_bConnected c) v (m_fVelocity c) (m_fCollisionThreshold c)
    (m_fGoalThreshold c) (m_bEpisodeDone c) (m_fEpisodeReward c).
Definition set_fVelocity (v : F32.float) (c : QSwarmController) :=
  Build_QSwarmController (m_strRobotId c) (m_nRobotIdNum c) (m_cGoalPosition c)
    (m_nEpisode c) (m_nSteps c) (m_nMaxSteps c) (m_nMaxEpisodes c) (m_nSocket c)
    (m_bConnected c) (m_cPreviousPosition c) v (m_fCollisionThreshold c)
    (m_fGoalThreshold c) (m_bEpisodeDone c) (m_fEpisodeReward c).
Definition set_bEpisodeDone (v : bool) (c : QSwarmController) :=
  Build_QSwarmController (m_strRobotId c) (m_nRobotIdNum c) (m_cGoalPosition c)
    (m_nEpisode c) (m_nSteps c) (m_nMaxSteps c) (m_nMaxEpisodes c) (m_nSocket c)
    (m_bConnected c) (m_cPreviousPosition c) (m_fVelocity c) (m_fCollisionThreshold c)
    (m_fGoalThreshold c) v (m_fEpisodeReward c).
Definition set_fEpisodeReward (v : F32.float) (c : QSwarmController) :=
  Build_QSwarmController (m_strRobotId c) (m_nRobotIdNum c) (m_cGoalPosition c)
    (m_nEpisode c) (m_nSteps c) (m_nMaxSteps c) (m_nMaxEpisodes c) (m_nSocket c)
    (m_bConnected c) (m_cPreviousPosition c) (m_fVelocity c) (m_fCollisionThreshold c)
    (m_fGoalThreshold c) (m_bEpisodeDone c) v.

(** *** The monad: object state, pending system results, trace, exceptions *)

Record World : Type := {
  this : QSwarmController;
  os : OS;
  trace : list Event          (* oldest first *)
}.

Inductive Outcome (A : Type) : Type :=
| Returns (a : A) (w : World)
| Throws (e : Str.exn) (w : World).
Arguments Returns {A} _ _.
Arguments Throws {A} _ _.

Definition M (A : Type) : Type := World -> Outcome A.

Definition ret {A} (a : A) : M A := fun w => Returns a w.

Definition bind {A B} (m : M A) (k : A -> M B) : M B :=
  fun w => match m w with
           | Returns a w' => k a w'
           | Throws e w' => Throws e w'
           end.

Definition throw {A} (e : Str.exn) : M A := fun w => Throws e w.

Definition lift {A} (r : Str.exn + A) : M A :=
  match r with
  | inr a => ret a
  | inl e => throw e
  end.

Definition self : M QSwarmController := fun w => Returns (this w) w.

Definition assign (f : QSwarmController -> QSwarmController) : M unit :=
  fun w => Returns tt {| this := f (this w); os := os w; trace := trace w |}.

Definition emit (e : Event) : M unit :=
  fun w => Returns tt {| this := this w; os := os w; trace := trace w ++ [e] |}.

Definition with_os (o : OS) : M unit :=
  fun w => Returns tt {| this := this w; os := o; trace := trace w |}.

Definition the_os : M OS := fun w => Returns (os w) w.

End Controller.

Arguments Returns {platform A} _ _.
Arguments Throws {platform A} _ _.

Declare Scope monad_scope.
Delimit Scope monad_scope with monad.
Notation "x <- c1 ;; c2" := (bind c1 (fun x => c2))
  (at level 61, c1 at next level, right associativity) : monad_scope.
Notation "' pat <- c1 ;; c2" := (bind c1 (fun x => match x with pat => c2 end))
  (at level 61, pat pattern, c1 at next level, right associativity) : monad_scope.
Notation "c1 ;; c2" := (bind c1 (fun _ => c2))
  (at level 61, right associativity) : monad_scope.

Section Methods.

Context {platform : Platform}.
Local Open Scope monad_scope.

(** *** System and library calls *)

Definition sys_socket : M Z :=
  o <- the_os ;;
  emit Socket ;;
  match socket_ret o with
  | r :: rest =>
      with_os {| socket_ret := rest; connect_ret := connect_ret o; send_ret := send_ret o;
                 recv_ret := recv_ret o; rand_ret := rand_ret o |} ;;
      ret r
  | [] => ret (-1)
  end.

Definition sys_connect (fd : Z) : M Z :=
  o <- the_os ;;
  emit (Connect fd) ;;
  match connect_ret o with
  | r :: rest =>
      with_os {| socket_ret := socket_ret o; connect_ret := rest; send_ret := send_ret o;
                 recv_ret := recv_ret o; rand_ret := rand_ret o |} ;;
      ret r
  | [] => ret (-1)
  end.

Definition sys_send (fd : Z) (bytes : string) : M Z :=
  o <- the_os ;;
  emit (Send fd bytes) ;;
  match send_ret o with
  | r :: rest =>
      with_os {| socket_ret := socket_ret o; connect_ret := connect_ret o; send_ret := rest;
                 recv_ret := recv_ret o; rand_ret := rand_ret o |} ;;
      ret r
  | [] => ret (-1)
  end.

(** [recv(fd, buffer, sizeof(buffer) - 1, 0)] with [char buffer[4096]]:
    at most 4095 bytes are taken. *)
Definition sys_recv (fd : Z) : M string :=
  o <- the_os ;;
  emit (Recv fd) ;;
  match recv_ret o with
  | r :: rest =>
      with_os {| socket_ret := socket_ret o; connect_ret := connect_ret o;
                 send_ret := send_ret o; recv_ret := rest; rand_ret := rand_ret o |} ;;
      ret (Str.take 4095 r)
  | [] => ret ""
  end.

Definition sys_rand : M Z :=
  o <- the_os ;;
  match rand_ret o with
  | r :: rest =>
      with_os {| socket_ret := socket_ret o; connect_ret := connect_ret o;
                 send_ret := send_ret o; recv_ret := recv_ret o; rand_ret := rest |} ;;
      ret (Z.of_N r)
  | [] => ret 0
  end.

(** *** QSwarmController::QSwarmController *)

Definition QSwarmController_new (origin : CVector2 Real) : QSwarmController := {|
  m_strRobotId := "";
  m_nRobotIdNum := 0;
  m_cGoalPosition := origin;
  m_nEpisode := 0;
  m_nSteps := 0;
  m_nMaxSteps := 500;
  m_nMaxEpisodes := 1000;
  m_nSocket := -1;
  m_bConnected := false;
  m_cPreviousPosition := origin;
  m_fVelocity := F32.tenth;
  m_fCollisionThreshold := F32.hundredth;
  m_fGoalThreshold := F32.half;
  m_bEpisodeDone := false;
  m_fEpisodeReward := F32.zero
|}.

(** *** QSwarmController::SendMessage *)

Definition SendMessage (message : string) : M bool :=
  c <- self ;;
  if (m_nSocket c <? 0) || negb (m_bConnected c) then ret false
  else
    let msg := message ++ String Str.newline "" in
    sent <- sys_send (m_nSocket c) msg ;;
    ret (0 <? sent).

(** *** QSwarmController::ReceiveMessage *)

Definition ReceiveMessage : M string :=
  c <- self ;;
  if (m_nSocket c <? 0) || negb (m_bConnected c) then ret ""
  else
    buffer <- sys_recv (m_nSocket c) ;;
    let received := Z.of_nat (String.length buffer) in
    if 0 <? received then
      let msg := Str.c_str buffer in
      ret (Str.strip_newline msg)
    else ret "".

(** *** QSwarmController::ConnectToQNetwork *)

Fixpoint connect_loop (fd : Z) (retries : nat) : M bool :=
  match retries with
  | O => ret false
  | S k =>
      r <- sys_connect fd ;;
      if r =? 0 then
        assign (set_bConnected true) ;;
        ret true
      else
        emit Sleep ;;
        connect_loop fd k
  end.

Definition ConnectToQNetwork : M bool :=
  fd <- sys_socket ;;
  assign (set_nSocket fd) ;;
  if fd <? 0 then ret false
  else connect_loop fd 10.

(** *** QSwarmController::CloseConnection, Destroy *)

Definition CloseConnection : M unit :=
  c <- self ;;
  if 0 <=? m_nSocket c then
    emit (Close (m_nSocket c)) ;;
    assign (set_nSocket (-1)) ;;
    assign (set_bConnected false)
  else ret tt.

Definition Destroy : M unit := CloseConnection.

(** *** QSwarmController::GetState *)

Definition GetState (s : Sensors) : M (list F32.float) :=
  c <- self ;;
  let x := float_of_Real (GetX (Position s)) in
  let y := float_of_Real (GetY (Position s)) in
  ret ([x; y;
        float_of_Real (GetX (m_cGoalPosition c));
        float_of_Real (GetY (m_cGoalPosition c))]
       ++ map float_of_Real (Readings s))%list.

(** *** QSwarmController::GetActionFromQNetwork *)

Definition state_message (id : Z) (state : list F32.float) : string :=
  fold_left (fun oss val => oss ++ "|" ++ show_float val) state
            ("STATE|" ++ Str.show_int id).

Definition GetActionFromQNetwork (state : list F32.float) : M Z :=
  c <- self ;;
  if negb (m_bConnected c) then
    r <- sys_rand ;;
    ret (Z.rem r 4)
  else
    sent <- SendMessage (state_message (m_nRobotIdNum c) state) ;;
    if negb sent then ret 0
    else
      response <- ReceiveMessage ;;
      if Str.empty response then ret 0
      else
        match Str.find "|" response with
        | Some pos =>
            actionStr <- lift (Str.substr response (pos + 1)) ;;
            lift (Str.stoi actionStr)
        | None => ret 0
        end.

(** *** QSwarmController::ExecuteAction *)

Definition ExecuteAction (action : Z) : M unit :=
  c <- self ;;
  let '(leftSpeed, rightSpeed) :=
    match action with
    | 0 => (m_fVelocity c, m_fVelocity c)
    | 1 => (F32.mul (F32.opp (m_fVelocity c)) F32.half, F32.mul (m_fVelocity c) F32.half)
    | 2 => (F32.mul (m_fVelocity c) F32.half, F32.mul (F32.opp (m_fVelocity c)) F32.half)
    | 3 => (F32.zero, F32.zero)
    | _ => (m_fVelocity c, m_fVelocity c)
    end in
  emit (SetLinearVelocity (Real_of_float leftSpeed) (Real_of_float rightSpeed)).

(** *** QSwarmController::ReachedGoal *)

Definition ReachedGoal (s : Sensors) : M bool :=
  c <- self ;;
  let currentPos := Vec2 (GetX (Position s)) (GetY (Position s)) in
  let distance := float_of_Real (Length_sub currentPos (m_cGoalPosition c)) in
  ret (F32.ltb distance (m_fGoalThreshold c)).

(** *** QSwarmController::DetectCollision *)

(** The [for] loop over the proximity readings, leaving at the first
    reading above [0.9f]. *)
Fixpoint close_obstacle (tReadings : list Real) : bool :=
  match tReadings with
  | [] => false
  | value :: rest =>
      if Real_gtb value (Real_of_float F32.nine_tenths) then true
      else close_obstacle rest
  end.

Definition DetectCollision (s : Sensors) : M bool :=
  c <- self ;;
  let currentPos := Vec2 (GetX (Position s)) (GetY (Position s)) in
  let distanceMoved := float_of_Real (Length_sub currentPos (m_cPreviousPosition c)) in
  assign (set_cPreviousPosition currentPos) ;;
  if F32.ltb distanceMoved (m_fCollisionThreshold c) then ret true
  else ret (close_obstacle (Readings s)).

(** *** QSwarmController::CalculateReward

    The result pairs the returned reward with the [done] out-parameter. *)

Definition CalculateReward (s : Sensors) : M (F32.float * bool) :=
  let reward := F32.minus_tenth in
  let done := false in
  reached <- ReachedGoal s ;;
  if reached then ret (F32.ten, true)
  else
    collided <- DetectCollision s ;;
    if collided then ret (F32.minus_five, true)
    else ret (reward, done).

(** *** QSwarmController::SendReward *)

Definition reward_message (id : Z) (reward : F32.float) (done : bool) : string :=
  "REWARD|" ++ Str.show_int id ++ "|" ++ show_float reward ++ "|"
            ++ (if done then "1" else "0").

Definition SendReward (reward : F32.float) (done : bool) : M unit :=
  c <- self ;;
  if negb (m_bConnected c) then ret tt
  else
    SendMessage (reward_message (m_nRobotIdNum c) reward done) ;;
    ReceiveMessage ;;
    ret tt.

(** *** QSwarmController::ResetEpisode *)

Definition stop_wheels : M unit :=
  emit (SetLinearVelocity (Real_of_float F32.zero) (Real_of_float F32.zero)).

Definition ResetEpisode (s : Sensors) : M unit :=
  c <- self ;;
  assign (set_nEpisode (Int32.incr (m_nEpisode c))) ;;
  assign (set_nSteps 0) ;;
  assign (set_bEpisodeDone false) ;;
  assign (set_fEpisodeReward F32.zero) ;;
  stop_wheels ;;
  assign (set_cPreviousPosition (Vec2 (GetX (Position s)) (GetY (Position s)))).

(** *** QSwarmController::Reset *)

Definition Reset (s : Sensors) : M unit :=
  assign (set_nEpisode 0) ;;
  assign (set_nSteps 0) ;;
  assign (set_bEpisodeDone false) ;;
  assign (set_fEpisodeReward F32.zero) ;;
  stop_wheels ;;
  assign (set_cPreviousPosition (Vec2 (GetX (Position s)) (GetY (Position s)))).

(** *** QSwarmController::ControlStep *)

Definition ControlStep (s : Sensors) : M unit :=
  c <- self ;;
  if m_nEpisode c >=? m_nMaxEpisodes c then stop_wheels
  else if m_bEpisodeDone c then ResetEpisode s
  else
    assign (set_nSteps (Int32.incr (m_nSteps c))) ;;
    state <- GetState s ;;
    action <- GetActionFromQNetwork state ;;
    ExecuteAction action ;;
    '(reward, done) <- CalculateReward s ;;
    c <- self ;;
    assign (set_fEpisodeReward (F32.add (m_fEpisodeReward c) reward)) ;;
    SendReward reward done ;;
    c <- self ;;
    if done || (m_nSteps c >=? m_nMaxSteps c) then assign (set_bEpisodeDone true)
    else ret tt.

(** *** QSwarmController::Init *)

(** The attributes of the controller's configuration node. *)
Record Configuration : Type := {
  goal_x : Attribute Real;
  goal_y : Attribute Real;
  velocity : Attribute F32.float;
  max_steps : Attribute Z;
  max_episodes : Attribute Z
}.

(** [GetNodeAttributeOrDefault(t_node, name, t_buffer, t_default)], with
    the buffer given by the assignment [store] to it: an absent attribute
    stores the default, a readable one its value, and an unreadable one
    throws. *)
Definition GetNodeAttributeOrDefault {A} (attribute : Attribute A)
           (store : A -> QSwarmController -> QSwarmController) (t_default : A) : M unit :=
  match attribute with
  | Absent => assign (store t_default)
  | Present a => assign (store a)
  | Malformed residue => assign (store residue) ;; throw Str.CARGoSException
  end.

(** [m_cGoalPosition.SetX(v)] and [m_cGoalPosition.SetY(v)] *)
Definition SetX (v : Real) (c : QSwarmController) : QSwarmController :=
  set_cGoalPosition (Vec2 v (GetY (m_cGoalPosition c))) c.
Definition SetY (v : Real) (c : QSwarmController) : QSwarmController :=
  set_cGoalPosition (Vec2 (GetX (m_cGoalPosition c)) v) c.

(** [GetId()] is the name the host gave the robot.  Each goal coordinate is
    read into the coordinate itself, which the buffer argument has set to
    18 on the way, with the coordinate's value as default: the value from
    before that assignment if the default argument is evaluated first, 18
    otherwise.  Velocity and the two limits are read into the members, with
    the members as defaults. *)
Definition Init (GetId : string) (t_node : Configuration) (s : Sensors) : M unit :=
  assign (set_strRobotId GetId) ;;
  c <- self ;;
  match Str.find_last_of "0123456789" (m_strRobotId c) with
  | Some pos =>
      digits <- lift (Str.substr (m_strRobotId c) pos) ;;
      n <- lift (Str.stoi digits) ;;
      assign (set_nRobotIdNum n)
  | None => ret tt
  end ;;
  c <- self ;;
  assign (SetX (Real_of_float F32.eighteen)) ;;
  GetNodeAttributeOrDefault (goal_x t_node) SetX
    (if buffer_argument_first "goal_x" then Real_of_float F32.eighteen
     else GetX (m_cGoalPosition c)) ;;
  c <- self ;;
  assign (SetY (Real_of_float F32.eighteen)) ;;
  GetNodeAttributeOrDefault (goal_y t_node) SetY
    (if buffer_argument_first "goal_y" then Real_of_float F32.eighteen
     else GetY (m_cGoalPosition c)) ;;
  c <- self ;;
  GetNodeAttributeOrDefault (velocity t_node) set_fVelocity (m_fVelocity c) ;;
  c <- self ;;
  GetNodeAttributeOrDefault (max_steps t_node) set_nMaxSteps (m_nMaxSteps c) ;;
  c <- self ;;
  GetNodeAttributeOrDefault (max_episodes t_node) set_nMaxEpisodes (m_nMaxEpisodes c) ;;
  assign (set_cPreviousPosition (Vec2 (GetX (Position s)) (GetY (Position s)))) ;;
  ConnectToQNetwork ;;
  ret tt.

(** *** The host's loop: one [ControlStep] per tick, until one throws *)

Fixpoint run_ticks (ticks : list Sensors) : M unit :=
  match ticks with
  | [] => ret tt
  | s :: rest => ControlStep s ;; run_ticks rest
  end.

End Methods.

(** ** The specification's vocabulary

    Pure functions that say, in the specification's words, what a tick
    computes; the theorems relate the methods to them. *)

Section Specification.

Context {platform : Platform}.

Definition currentPos (s : Sensors) : CVector2 Real :=
  Vec2 (GetX (Position s)) (GetY (Position s)).

Definition distance (a b : CVector2 Real) : F32.float := float_of_Real (Length_sub a b).

Definition goal_reached (c : QSwarmController) (s : Sensors) : bool :=
  F32.ltb (distance (currentPos s) (m_cGoalPosition c)) (m_fGoalThreshold c).

Definition failed_to_move (c : QSwarmController) (s : Sensors) : bool :=
  F32.ltb (distance (currentPos s) (m_cPreviousPosition c)) (m_fCollisionThreshold c).

Definition near_obstacle (s : Sensors) : bool :=
  existsb (fun reading => Real_gtb reading (Real_of_float F32.nine_tenths)) (Readings s).

Definition collision (c : QSwarmController) (s : Sensors) : bool :=
  failed_to_move c s || near_obstacle s.

Definition evaluate (c : QSwarmController) (s : Sensors) : F32.float * bool :=
  if goal_reached c s then (F32.ten, true)
  else if collision c s then (F32.minus_five, true)
  else (F32.minus_tenth, false).

(** The wheel speeds of the specification's table. *)
Definition wheel_speeds (v : F32.float) (action : Z) : F32.float * F32.float :=
  if action =? 0 then (v, v)
  else if action =? 1 then (F32.opp (F32.mul F32.half v), F32.mul F32.half v)
  else if action =? 2 then (F32.mul F32.half v, F32.opp (F32.mul F32.half v))
  else if action =? 3 then (F32.zero, F32.zero)
  else (v, v).

Definition wheel_command (v : F32.float) (action : Z) : Event :=
  SetLinearVelocity (Real_of_float (fst (wheel_speeds v action)))
                    (Real_of_float (snd (wheel_speeds v action))).

(** *** The episode state machine *)

(** The [int] fields hold 32-bit values. *)
Definition ints_in_range (c : QSwarmController) : Prop :=
  Int32.in_range (m_nEpisode c) /\ Int32.in_range (m_nSteps c) /\
  Int32.in_range (m_nMaxSteps c) /\ Int32.in_range (m_nMaxEpisodes c).

Definition Finished (c : QSwarmController) : Prop := m_nEpisode c >= m_nMaxEpisodes c.

Definition EpisodeDone (c : QSwarmController) : Prop :=
  m_nEpisode c < m_nMaxEpisodes c /\ m_bEpisodeDone c = true.

Definition Running (c : QSwarmController) : Prop :=
  m_nEpisode c < m_nMaxEpisodes c /\ m_bEpisodeDone c = false.

Definition stop_command : Event :=
  SetLinearVelocity (Real_of_float F32.zero) (Real_of_float F32.zero).

(** What a [Running] tick does to the object, from the object and the
    sensors alone. *)
Definition local_update (c : QSwarmController) (s : Sensors) : QSwarmController :=
  let steps := Int32.incr (m_nSteps c) in
  let reward := fst (evaluate c s) in
  let done := snd (evaluate c s) in
  set_bEpisodeDone (done || (steps >=? m_nMaxSteps c))
    (set_fEpisodeReward (F32.add (m_fEpisodeReward c) reward)
       (set_cPreviousPosition
          (if goal_reached c s then m_cPreviousPosition c else currentPos s)
          (set_nSteps steps c))).

(** What the episode reset does to the object. *)
Definition reset_episode (c : QSwarmController) (s : Sensors) : QSwarmController :=
  set_cPreviousPosition (currentPos s)
    (set_fEpisodeReward F32.zero
       (set_bEpisodeDone false
          (set_nSteps 0
             (set_nEpisode (m_nEpisode c + 1) c)))).

(** *** The wire codec *)

(** The message [ReceiveMessage] makes of the bytes one [recv] delivers. *)
Definition received_message (bytes : string) : string :=
  let buffer := Str.take 4095 bytes in
  if 0 <? Z.of_nat (String.length buffer) then Str.strip_newline (Str.c_str buffer) else "".

(** What decoding a reply yields: an action id, or the exception thrown. *)
Definition decode (response : string) : Str.exn + Z :=
  if Str.empty response then inr 0
  else
    match Str.find "|" response with
    | Some pos =>
        match Str.substr response (pos + 1) with
        | inr actionStr => Str.stoi actionStr
        | inl e => inl e
        end
    | None => inr 0
    end.

Definition decodable (bytes : string) : bool :=
  match decode (received_message bytes) with
  | inr _ => true
  | inl _ => false
  end.

Definition next_rand (o : OS) : Z :=
  match rand_ret o with
  | r :: _ => Z.of_N r
  | [] => 0
  end.

Definition send_succeeds (w : World) : bool :=
  negb ((m_nSocket (this w) <? 0) || negb (m_bConnected (this w)))
  && (0 <? hd (-1) (send_ret (os w))).

(** The outcome of the action request in world [w]. *)
Definition action_reply (w : World) : Str.exn + Z :=
  if negb (m_bConnected (this w)) then inr (Z.rem (next_rand (os w)) 4)
  else if negb (send_succeeds w) then inr 0
  else decode (received_message (hd "" (recv_ret (os w)))).

(** The three protocol failures a tick absorbs. *)
Inductive Hiccup : Type :=
| Disconnected
| StateSendFailed
| EmptyReply.

Definition hiccup (w : World) : option Hiccup :=
  if negb (m_bConnected (this w)) then Some Disconnected
  else if negb (send_succeeds w) then Some StateSendFailed
  else if Str.empty (received_message (hd "" (recv_ret (os w)))) then Some EmptyReply
  else None.

Definition fallback_action (w : World) (h : Hiccup) : Z :=
  match h with
  | Disconnected => Z.rem (next_rand (os w)) 4
  | StateSendFailed => 0
  | EmptyReply => 0
  end.

(** *** Episodes *)

Definition world_of {A} (o : Outcome A) : World :=
  match o with
  | Returns _ w => w
  | Throws _ w => w
  end.

(** [n] step penalties added one by one to [acc], in single precision. *)
Fixpoint add_penalties (n : nat) (acc : F32.float) : F32.float :=
  match n with
  | O => acc
  | S k => add_penalties k (F32.add acc F32.minus_tenth)
  end.

(** No tick of [ticks] reaches the goal or collides, the first one
    being compared with the position [previous]. *)
Fixpoint uneventful (c : QSwarmController) (previous : CVector2 Real)
         (ticks : list Sensors) : bool :=
  match ticks with
  | [] => true
  | s :: rest =>
      negb (goal_reached c s)
      && negb (collision (set_cPreviousPosition previous c) s)
      && uneventful c (currentPos s) rest
  end.

Definition fresh_episode (c : QSwarmController) : Prop :=
  m_nSteps c = 0 /\ m_fEpisodeReward c = F32.zero /\ m_bEpisodeDone c = false.

(** *** Steps that only talk to the network *)

(** From [w] to [w']: the object is untouched, the new commands are all
    sends and receives, and the pending replies are a suffix of the old. *)
Definition io_step (w w' : World) : Prop :=
  this w' = this w /\
  (exists evs, trace w' = (trace w ++ evs)%list /\ forallb is_traffic evs = true) /\
  (exists k, recv_ret (os w') = skipn k (recv_ret (os w))).

(** A [Running] tick from [w] to [w'] that executed action [a]: the
    object is updated from the sensors alone, exactly one actuator
    command was issued, for [a], and everything else issued is traffic. *)
Definition tick_result (s : Sensors) (w w' : World) (a : Z) : Prop :=
  this w' = local_update (this w) s /\
  (exists before after,
      trace w' = (trace w ++ before ++ [wheel_command (m_fVelocity (this w)) a] ++ after)%list /\
      forallb is_traffic before = true /\ forallb is_traffic after = true) /\
  (exists k, recv_ret (os w') = skipn k (recv_ret (os w))).

Definition last_position (previous : CVector2 Real) (ticks : list Sensors) : CVector2 Real :=
  fold_left (fun _ s => currentPos s) ticks previous.

(** The object after the uneventful ticks [ticks] of one episode. *)
Definition after_uneventful (c : QSwarmController) (ticks : list Sensors) : QSwarmController :=
  let n := List.length ticks in
  let steps := m_nSteps c + Z.of_nat n in
  set_bEpisodeDone (negb (n =? 0)%nat && (steps >=? m_nMaxSteps c))
    (set_fEpisodeReward (add_penalties n (m_fEpisodeReward c))
       (set_cPreviousPosition (last_position (m_cPreviousPosition c) ticks)
          (set_nSteps steps c))).

(** *** The robot's id *)

(** The value of the last digit character of [name], if it has one. *)
Fixpoint last_digit (name : string) : option Z :=
  match name with
  | EmptyString => None
  | String c rest =>
      match last_digit rest with
      | Some d => Some d
      | None => if Str.isdigit c then Some (Str.digit_value c) else None
      end
  end.

Fixpoint all_digits (s : string) : bool :=
  match s with
  | EmptyString => true
  | String c rest => Str.isdigit c && all_digits rest
  end.

(** The longest suffix of [name] made of digits only. *)
Fixpoint trailing_digits (name : string) : string :=
  match name with
  | EmptyString => EmptyString
  | String c rest => if all_digits name then name else trailing_digits rest
  end.

(** The specification's reading: the number the trailing digits spell. *)
Definition trailing_number (name : string) : option Z :=
  match trailing_digits name with
  | EmptyString => None
  | digits => Some (Str.digits_value 0 digits)
  end.

(** The id [Init] leaves in the object whose id was [old]. *)
Definition robot_id (name : string) (old : Z) : Z :=
  match last_digit name with
  | Some d => d
  | None => old
  end.

(** *** Exact effects on the pending results *)

Definition pop_send (o : OS) : OS :=
  {| socket_ret := socket_ret o; connect_ret := connect_ret o; send_ret := tl (send_ret o);
     recv_ret := recv_ret o; rand_ret := rand_ret o |}.

Definition pop_recv (o : OS) : OS :=
  {| socket_ret := socket_ret o; connect_ret := connect_ret o; send_ret := send_ret o;
     recv_ret := tl (recv_ret o); rand_ret := rand_ret o |}.

Definition pop_rand (o : OS) : OS :=
  {| socket_ret := socket_ret o; connect_ret := connect_ret o; send_ret := send_ret o;
     recv_ret := recv_ret o; rand_ret := tl (rand_ret o) |}.

(** The socket can be used: it is open and the object believes so. *)
Definition usable (c : QSwarmController) : Prop :=
  0 <= m_nSocket c /\ m_bConnected c = true.

(** The state vector of a tick. *)
Definition observation (c : QSwarmController) (s : Sensors) : list F32.float :=
  [float_of_Real (GetX (Position s)); float_of_Real (GetY (Position s));
   float_of_Real (GetX (m_cGoalPosition c)); float_of_Real (GetY (m_cGoalPosition c))]
  ++ map float_of_Real (Readings s).

(** A message as [SendMessage] puts it on the wire. *)
Definition framed (message : string) : string := (message ++ String Str.newline "")%string.

(** The bytes of the state message and of the reward message of a tick. *)
Definition state_line (c : QSwarmController) (s : Sensors) : string :=
  framed (state_message (m_nRobotIdNum c) (observation c s)).

Definition reward_line (c : QSwarmController) (s : Sensors) : string :=
  framed (reward_message (m_nRobotIdNum c) (fst (evaluate c s)) (snd (evaluate c s))).

(** *** Kinds of commands *)

Definition is_wheel (e : Event) : bool :=
  match e with
  | SetLinearVelocity _ _ => true
  | _ => false
  end.

(** What a tick has no business changing: name, id, goal, limits,
    connection, velocity and thresholds. *)
Definition setup (c : QSwarmController) :=
  (m_strRobotId c, m_nRobotIdNum c, m_cGoalPosition c, m_nMaxSteps c, m_nMaxEpisodes c,
   m_nSocket c, m_bConnected c, m_fVelocity c, m_fCollisionThreshold c, m_fGoalThreshold c).

(** The counters are where an episode can have put them. *)
Definition counters_ok (c : QSwarmController) : Prop :=
  ints_in_range c /\
  0 <= m_nSteps c <= Z.max 1 (m_nMaxSteps c) /\
  (m_bEpisodeDone c = false -> m_nSteps c < m_nMaxSteps c \/ m_nSteps c = 0).

(** One of the first [n] pending [connect] results is a success. *)
Definition connects_within (n : nat) (results : list Z) : bool :=
  existsb (fun r => r =? 0) (firstn n results).

(** Can the attribute be read, and what is in the buffer after the call. *)
Definition readable {A} (attribute : Attribute A) : bool :=
  match attribute with Malformed _ => false | _ => true end.

Definition stored {A} (attribute : Attribute A) (t_default : A) : A :=
  match attribute with
  | Absent => t_default
  | Present a => a
  | Malformed residue => residue
  end.

Definition all_readable (t_node : Configuration) : bool :=
  readable (goal_x t_node) && readable (goal_y t_node) && readable (velocity t_node)
  && readable (max_steps t_node) && readable (max_episodes t_node).

(** The default the goal coordinate of attribute [name] is read with,
    [old] being the coordinate when [Init] is called. *)
Definition goal_default (name : string) (old : Real) : Real :=
  if buffer_argument_first name then Real_of_float F32.eighteen else old.

(** The object [Init] leaves behind, before it tries to connect, when
    every attribute can be read. *)
Definition configured (name : string) (t_node : Configuration) (s : Sensors)
           (c : QSwarmController) : QSwarmController :=
  set_cPreviousPosition (currentPos s)
    (set_nMaxEpisodes (stored (max_episodes t_node) (m_nMaxEpisodes c))
       (set_nMaxSteps (stored (max_steps t_node) (m_nMaxSteps c))
          (set_fVelocity (stored (velocity t_node) (m_fVelocity c))
             (set_cGoalPosition
                (Vec2 (stored (goal_x t_node)
                              (goal_default "goal_x" (GetX (m_cGoalPosition c))))
                      (stored (goal_y t_node)
                              (goal_default "goal_y" (GetY (m_cGoalPosition c)))))
                (set_nRobotIdNum (robot_id name (m_nRobotIdNum c))
                   (set_strRobotId name c)))))).

(** The value a run of decimal digits spells after [acc]. *)
Fixpoint uint_value (acc : Z) (d : Decimal.uint) : Z :=
  match d with
  | Decimal.Nil => acc
  | Decimal.D0 d => uint_value (10 * acc + 0) d
  | Decimal.D1 d => uint_value (10 * acc + 1) d
  | Decimal.D2 d => uint_value (10 * acc + 2) d
  | Decimal.D3 d => uint_value (10 * acc + 3) d
  | Decimal.D4 d => uint_value (10 * acc + 4) d
  | Decimal.D5 d => uint_value (10 * acc + 5) d
  | Decimal.D6 d => uint_value (10 * acc + 6) d
  | Decimal.D7 d => uint_value (10 * acc + 7) d
  | Decimal.D8 d => uint_value (10 * acc + 8) d
  | Decimal.D9 d => uint_value (10 * acc + 9) d
  end.

Definition pop_socket (o : OS) : OS :=
  {| socket_ret := tl (socket_ret o); connect_ret := connect_ret o; send_ret := send_ret o;
     recv_ret := recv_ret o; rand_ret := rand_ret o |}.

Definition pop_connect (o : OS) : OS :=
  {| socket_ret := socket_ret o; connect_ret := tl (connect_ret o); send_ret := send_ret o;
     recv_ret := recv_ret o; rand_ret := rand_ret o |}.

(** The descriptor [socket()] will return and whether
    [ConnectToQNetwork] will succeed, read off the pending results. *)
Definition next_socket (o : OS) : Z := hd (-1) (socket_ret o).

Definition will_connect (o : OS) : bool :=
  (0 <=? next_socket o) && connects_within 10 (connect_ret o).

Definition connected_object (o : OS) (c : QSwarmController) : QSwarmController :=
  if will_connect o then set_bConnected true (set_nSocket (next_socket o) c)
  else set_nSocket (next_socket o) c.

(** The pending results with the first [n] results of [connect] used up. *)
Definition drop_connects (n : nat) (o : OS) : OS :=
  {| socket_ret := socket_ret o; connect_ret := skipn n (connect_ret o);
     send_ret := send_ret o; recv_ret := recv_ret o; rand_ret := rand_ret o |}.

(** [n] failed attempts, each followed by its pause. *)
Definition failed_attempts (fd : Z) (n : nat) : list Event :=
  List.concat (repeat [Connect fd; Sleep] n).

(** *** The pending results a tick uses up *)

(** The pending results after the action request of a [Running] tick,
    and after the reward message that follows it. *)
Definition os_after_request (c : QSwarmController) (o : OS) : OS :=
  if negb (m_bConnected c) then pop_rand o
  else if m_nSocket c <? 0 then o
  else if 0 <? hd (-1) (send_ret o) then pop_recv (pop_send o)
  else pop_send o.

Definition os_after_reward (c : QSwarmController) (o : OS) : OS :=
  if (m_nSocket c <? 0) || negb (m_bConnected c) then o
  else pop_recv (pop_send o).

Definition os_after_tick (c : QSwarmController) (o : OS) : OS :=
  os_after_reward c (os_after_request c o).

(** None of the next [n] action requests throws: whatever is read as the
    reply to a state message decodes.  What is read as an
    acknowledgment is skipped unseen. *)
Fixpoint requests_return (c : QSwarmController) (o : OS) (n : nat) : bool :=
  match n with
  | O => true
  | S k =>
      match action_reply {| this := c; os := o; trace := [] |} with
      | inr _ => requests_return c (os_after_tick c o) k
      | inl _ => false
      end
  end.

(** No NUL character in [s]. *)
Fixpoint nul_free (s : string) : bool :=
  match s with
  | EmptyString => true
  | String c rest => negb (Ascii.eqb c zero) && nul_free rest
  end.

(** The first digit of [d] is not 0. *)
Definition leading_nonzero (d : Decimal.uint) : bool :=
  match d with
  | Decimal.Nil | Decimal.D0 _ => false
  | _ => true
  end.

End Specification.

(** ** A concrete host: [Real] is [double]

    Binary64 scalars, the Euclidean length computed in [Real], and the
    usual conversions ([float] to [double] is exact, [double] to [float]
    rounds to nearest even).  It is the host on which the examples below
    are run. *)

Module ArgosDouble.

Definition prec : Z := 53.
Definition emax : Z := 1024.

Definition double : Type := spec_float.

Definition convert (p e : Z) (x : spec_float) : spec_float :=
  match x with
  | S754_finite s m ex => binary_round p e s m ex
  | _ => x
  end.

Definition of_float (x : F32.float) : double := convert prec emax x.
Definition to_float (x : double) : F32.float := convert F32.prec F32.emax x.
Definition of_Z (n : Z) : double := binary_normalize prec emax n 0 false.
Definition gtb (a b : double) : bool := SFltb b a.

Definition Square (x : double) : double := SFmul prec emax x x.

Definition Length (v : CVector2 double) : double :=
  SFsqrt prec emax (SFadd prec emax (Square (GetX v)) (Square (GetY v))).

Definition sub (a b : CVector2 double) : CVector2 double :=
  Vec2 (SFsub prec emax (GetX a) (GetX b)) (SFsub prec emax (GetY a) (GetY b)).

(** A stand-in for the stream's formatting: sign, significand and
    binary exponent.  No property below depends on the text. *)
Definition show (x : F32.float) : string :=
  match x with
  | S754_zero s => if s then "-0" else "0"
  | S754_infinity s => if s then "-inf" else "inf"
  | S754_nan => "nan"
  | S754_finite s m e =>
      (if s then "-" else "") ++ Str.show_int (Zpos m) ++ "p" ++ Str.show_int e
  end.

#[global] Instance platform : Platform := {|
  Real := double;
  Real_of_float := of_float;
  float_of_Real := to_float;
  Real_gtb := gtb;
  Length_sub := fun a b => Length (sub a b);
  show_float := show;
  (* the arguments of a call are evaluated from the last to the first *)
  buffer_argument_first := fun _ => false
|}.

Definition at_ (x y : Z) : Sensors :=
  {| Position := Vec2 (of_Z x) (of_Z y); Readings := [] |}.

Definition no_os : OS :=
  {| socket_ret := []; connect_ret := []; send_ret := []; recv_ret := []; rand_ret := [] |}.

Definition world (c : QSwarmController) (o : OS) : World :=
  {| this := c; os := o; trace := [] |}.

(** *** Example objects and worlds *)

Definition origin : CVector2 Real := Vec2 (of_Z 0) (of_Z 0).

(** A robot whose server is not there: as constructed, with the goal
    at (18, 18) and the given step limit. *)
Definition offline (steps_limit : Z) : QSwarmController :=
  set_nMaxSteps steps_limit
    (set_cGoalPosition (Vec2 (of_Z 18) (of_Z 18)) (QSwarmController_new origin)).

(** The same robot with an open connection on descriptor 3. *)
Definition online (steps_limit : Z) : QSwarmController :=
  set_bConnected true (set_nSocket 3 (offline steps_limit)).

(** [n] ticks, one unit further along the x axis at each. *)
Definition walk (n : nat) : list Sensors :=
  map (fun k => at_ (Z.of_nat k) 0) (seq 1 n).

Definition replies (sent : list Z) (received : list string) : OS :=
  {| socket_ret := []; connect_ret := []; send_ret := sent; recv_ret := received;
     rand_ret := [] |}.

Definition line (s : string) : string := s ++ String Str.newline "".

Definition default_configuration : Configuration :=
  {| goal_x := Absent; goal_y := Absent; velocity := Absent; max_steps := Absent;
     max_episodes := Absent |}.

(** The robot on the goal, one that has used up its episodes, one whose
    episode has just ended, and one whose server answers [ACTION|abc]. *)
Definition on_goal : Sensors := at_ 18 18.

Definition finished : World := world (set_nEpisode 1000 (offline 500)) no_os.

Definition episode_over : World := world (set_bEpisodeDone true (offline 500)) no_os.

Definition garbled : World :=
  world (online 500) (replies [20; 20] [line "ACTION|abc"; line "ACK"]).

(** A connected robot whose server answers the state message with
    [reply] and the reward message with [ACK]; one whose first send
    fails. *)
Definition answering (reply : string) : World :=
  world (online 500) (replies [20; 20] [line reply; line "ACK"]).

Definition send_fails : World :=
  world (online 500) (replies [-1; 20] [line "ACK"]).

(** A connected robot with a limit of three steps, whose server answers
    every state message with an action and every reward message with
    [ACK|ok]. *)
Definition served : World :=
  world (online 3)
        (replies [20; 20; 20; 20; 20; 20]
                 [line "ACTION|0"; line "ACK|ok"; line "ACTION|1"; line "ACK|ok";
                  line "ACTION|0"; line "ACK|ok"]).

(** A configuration whose velocity attribute is not a number. *)
Definition unreadable_velocity : Configuration :=
  {| goal_x := Absent; goal_y := Absent; velocity := Malformed F32.zero;
     max_steps := Absent; max_episodes := Absent |}.

(** A server that accepts the third connection attempt. *)
Definition third_time_lucky : OS :=
  {| socket_ret := [3]; connect_ret := [-1; -1; 0; 0; -1]; send_ret := [];
     recv_ret := []; rand_ret := [] |}.

End ArgosDouble.

(** * Properties *)

(** ** Machine integers *)

Module Int32Facts.

Import Int32.

Lemma in_rangeb_spec z : in_rangeb z = true <-> in_range z.
Proof. unfold in_rangeb, in_range. rewrite andb_true_iff, !Z.leb_le. tauto. Qed.

Lemma wrap_id z : in_range z -> wrap z = z.
Proof.
  unfold in_range, INT_MIN, INT_MAX, wrap. intros H.
  rewrite Z.mod_small by lia. lia.
Qed.

Lemma wrap_in_range z : in_range (wrap z).
Proof.
  unfold in_range, INT_MIN, INT_MAX, wrap.
  pose proof (Z.mod_pos_bound (z + 2147483648) 4294967296 eq_refl). lia.
Qed.

Lemma incr_below z hi : in_range z -> in_range hi -> z < hi -> incr z = z + 1.
Proof.
  unfold incr, in_range, INT_MIN, INT_MAX. intros Hz Hhi Hlt.
  apply wrap_id. unfold in_range, INT_MIN, INT_MAX. lia.
Qed.

End Int32Facts.

(** ** Two facts of binary32 multiplication *)

Module F32Facts.

Lemma binary_round_aux_negb p e (s : bool) m ex l :
  binary_round_aux p e (negb s) m ex l = SFopp (binary_round_aux p e s m ex l).
Proof.
  unfold binary_round_aux.
  destruct (shr_fexp p e m ex l) as [mrs' e'].
  destruct (shr_fexp p e _ e' loc_Exact) as [mrs'' e''].
  destruct (shr_m mrs''); [reflexivity | | reflexivity].
  destruct (e'' <=? e - p); reflexivity.
Qed.

Lemma mul_opp_l x y : F32.mul (F32.opp x) y = F32.opp (F32.mul x y).
Proof.
  unfold F32.mul, F32.opp.
  destruct x as [sx | sx | | sx mx ex], y as [sy | sy | | sy my ey]; simpl;
    try reflexivity; try (destruct sx, sy; reflexivity).
  rewrite <- binary_round_aux_negb. destruct sx, sy; reflexivity.
Qed.

Lemma mul_comm x y : F32.mul x y = F32.mul y x.
Proof.
  unfold F32.mul.
  destruct x as [sx | sx | | sx mx ex], y as [sy | sy | | sy my ey]; simpl;
    try reflexivity; try (rewrite xorb_comm; reflexivity).
  rewrite xorb_comm, Pos.mul_comm, Z.add_comm. reflexivity.
Qed.

End F32Facts.

Section Properties.

Context {platform : Platform}.
Local Open Scope monad_scope.
Local Open Scope list_scope.

Lemma close_obstacle_existsb (readings : list Real) :
  close_obstacle readings =
  existsb (fun reading => Real_gtb reading (Real_of_float F32.nine_tenths)) readings.
Proof.
  induction readings as [| value rest IH]; simpl; [reflexivity |].
  rewrite IH. destruct (Real_gtb value _); reflexivity.
Qed.

Lemma DetectCollision_run (s : Sensors) (w : World) :
  DetectCollision s w =
  Returns (collision (this w) s)
          {| this := set_cPreviousPosition (currentPos s) (this w);
             os := os w; trace := trace w |}.
Proof.
  unfold DetectCollision, collision, failed_to_move, near_obstacle, distance, currentPos,
    bind, self, assign, ret. simpl.
  destruct (F32.ltb _ _); simpl; [reflexivity |].
  rewrite close_obstacle_existsb. reflexivity.
Qed.

Lemma ReachedGoal_run (s : Sensors) (w : World) :
  ReachedGoal s w = Returns (goal_reached (this w) s) w.
Proof. reflexivity. Qed.

Lemma CalculateReward_run (s : Sensors) (w : World) :
  CalculateReward s w =
  Returns (evaluate (this w) s)
          {| this := if goal_reached (this w) s then this w
                     else set_cPreviousPosition (currentPos s) (this w);
             os := os w; trace := trace w |}.
Proof.
  unfold CalculateReward, evaluate, bind at 1. rewrite ReachedGoal_run.
  destruct (goal_reached (this w) s).
  - destruct w; reflexivity.
  - unfold bind. rewrite DetectCollision_run.
    destruct (collision (this w) s); reflexivity.
Qed.

(** C1. The evaluation returns [(+10.0f, true)] when the distance to the
    goal is below the goal threshold, whatever the collision test would
    say; otherwise [(-5.0f, true)] when the distance to the previous
    position is below the collision threshold or some proximity reading
    is above [0.9f]; otherwise [(-0.1f, false)].  It never throws. *)
Theorem C1_reward_evaluation (s : Sensors) (w : World) :
  exists w',
    CalculateReward s w =
    Returns
      (if F32.ltb (distance (currentPos s) (m_cGoalPosition (this w)))
                  (m_fGoalThreshold (this w))
       then (F32.ten, true)
       else if F32.ltb (distance (currentPos s) (m_cPreviousPosition (this w)))
                       (m_fCollisionThreshold (this w))
               || existsb (fun reading => Real_gtb reading (Real_of_float F32.nine_tenths))
                          (Readings s)
       then (F32.minus_five, true)
       else (F32.minus_tenth, false))
      w'.
Proof. eexists. rewrite CalculateReward_run. reflexivity. Qed.

(** C2, as the code has it.  The evaluation stores the current position
    in [m_cPreviousPosition] exactly when the goal test fails (with or
    without a collision); when the goal test succeeds the collision test
    is not run and [m_cPreviousPosition] keeps its value.  Nothing else
    of the object, no pending system result and no command is touched. *)
Theorem C2_previous_position (s : Sensors) (w : World) :
  exists r w',
    CalculateReward s w = Returns r w' /\
    m_cPreviousPosition (this w') =
      (if goal_reached (this w) s then m_cPreviousPosition (this w) else currentPos s) /\
    this w' = set_cPreviousPosition (m_cPreviousPosition (this w')) (this w) /\
    os w' = os w /\ trace w' = trace w.
Proof.
  eexists. eexists. rewrite CalculateReward_run. split; [reflexivity |].
  simpl. destruct (goal_reached (this w) s); simpl.
  - repeat split. destruct (this w); reflexivity.
  - repeat split.
Qed.

(** ** ExecuteAction *)

Lemma ExecuteAction_run (action : Z) (w : World) :
  ExecuteAction action w =
  Returns tt {| this := this w; os := os w;
                trace := trace w ++ [wheel_command (m_fVelocity (this w)) action] |}.
Proof.
  unfold ExecuteAction, wheel_command, wheel_speeds, bind, self, emit.
  rewrite F32Facts.mul_opp_l, (F32Facts.mul_comm (m_fVelocity (this w)) F32.half).
  destruct action as [| p | p]; [reflexivity | | reflexivity].
  destruct p as [[p | p |] | [p | p |] |]; reflexivity.
Qed.

(** C9. For every integer [action], [ExecuteAction] issues exactly one
    actuator command and changes nothing else: [(v, v)] for 0,
    [(-0.5v, 0.5v)] for 1, [(0.5v, -0.5v)] for 2, [(0, 0)] for 3 and
    [(v, v)] for every other integer, [v] being [m_fVelocity]. *)
Theorem C9_execute_action (action : Z) (w : World) :
  let v := m_fVelocity (this w) in
  let half_v := F32.mul F32.half v in
  ExecuteAction action w =
  Returns tt
    {| this := this w; os := os w;
       trace := trace w ++
         [match action with
          | 0 => SetLinearVelocity (Real_of_float v) (Real_of_float v)
          | 1 => SetLinearVelocity (Real_of_float (F32.opp half_v)) (Real_of_float half_v)
          | 2 => SetLinearVelocity (Real_of_float half_v) (Real_of_float (F32.opp half_v))
          | 3 => SetLinearVelocity (Real_of_float F32.zero) (Real_of_float F32.zero)
          | _ => SetLinearVelocity (Real_of_float v) (Real_of_float v)
          end] |}.
Proof.
  intros v half_v. rewrite ExecuteAction_run. unfold wheel_command, wheel_speeds.
  destruct action as [| p | p]; [reflexivity | | reflexivity].
  destruct p as [[p | p |] | [p | p |] |]; reflexivity.
Qed.

(** ** Reset *)

(** C10. [Reset] restores the initial episode state: episode 0, step 0,
    reward 0, not done; it stops the wheels and snapshots the current
    position.  The socket, the connected flag, the id, the goal, the
    velocity, the limits and the thresholds keep their values, no system
    call is made (so no traffic and no reconnect), and it cannot throw. *)
Theorem C10_experiment_reset (s : Sensors) (w : World) :
  Reset s w =
  Returns tt
    {| this :=
         {| m_strRobotId := m_strRobotId (this w);
            m_nRobotIdNum := m_nRobotIdNum (this w);
            m_cGoalPosition := m_cGoalPosition (this w);
            m_nEpisode := 0;
            m_nSteps := 0;
            m_nMaxSteps := m_nMaxSteps (this w);
            m_nMaxEpisodes := m_nMaxEpisodes (this w);
            m_nSocket := m_nSocket (this w);
            m_bConnected := m_bConnected (this w);
            m_cPreviousPosition := currentPos s;
            m_fVelocity := m_fVelocity (this w);
            m_fCollisionThreshold := m_fCollisionThreshold (this w);
            m_fGoalThreshold := m_fGoalThreshold (this w);
            m_bEpisodeDone := false;
            m_fEpisodeReward := F32.zero |};
       os := os w;
       trace := trace w ++ [stop_command] |}.
Proof. reflexivity. Qed.

(** ** The three branches of ControlStep *)

Lemma ControlStep_finished (s : Sensors) (w : World) :
  Finished (this w) ->
  ControlStep s w =
  Returns tt {| this := this w; os := os w; trace := trace w ++ [stop_command] |}.
Proof.
  unfold Finished. intros H. unfold ControlStep, bind, self.
  replace (m_nEpisode (this w) >=? m_nMaxEpisodes (this w)) with true
    by (symmetry; rewrite Z.geb_le; lia).
  reflexivity.
Qed.

Lemma run_ticks_finished (ticks : list Sensors) (w : World) :
  Finished (this w) ->
  run_ticks ticks w =
  Returns tt {| this := this w; os := os w;
                trace := trace w ++ repeat stop_command (List.length ticks) |}.
Proof.
  revert w. induction ticks as [| s rest IH]; intros w H; simpl.
  - rewrite app_nil_r. destruct w; reflexivity.
  - unfold bind. rewrite (ControlStep_finished s w H).
    rewrite IH by exact H. simpl. rewrite <- app_assoc. reflexivity.
Qed.

(** C5. Once [m_nEpisode >= m_nMaxEpisodes], a tick issues the stop
    command and nothing else: no field of the object changes and no
    system call is made.  The condition therefore still holds at the
    next tick, and any number of further ticks only repeat the stop
    command. *)
Theorem C5_finished_is_permanent (w : World) :
  m_nEpisode (this w) >= m_nMaxEpisodes (this w) ->
  (forall s,
     ControlStep s w =
     Returns tt {| this := this w; os := os w; trace := trace w ++ [stop_command] |}) /\
  (forall ticks,
     run_ticks ticks w =
     Returns tt {| this := this w; os := os w;
                   trace := trace w ++ repeat stop_command (List.length ticks) |}).
Proof.
  intros H. split.
  - intros s. apply ControlStep_finished. exact H.
  - intros ticks. apply run_ticks_finished. exact H.
Qed.

Lemma ControlStep_episode_done (s : Sensors) (w : World) :
  ints_in_range (this w) ->
  EpisodeDone (this w) ->
  ControlStep s w =
  Returns tt {| this := reset_episode (this w) s; os := os w;
                trace := trace w ++ [stop_command] |}.
Proof.
  intros (He & _ & _ & Hm) (Hlt & Hdone).
  unfold ControlStep, bind at 1, self.
  replace (m_nEpisode (this w) >=? m_nMaxEpisodes (this w)) with false
    by (symmetry; rewrite Z.geb_leb, Z.leb_gt; lia).
  rewrite Hdone.
  unfold ResetEpisode, reset_episode, bind, self, assign, stop_wheels, emit. simpl.
  rewrite (Int32Facts.incr_below _ _ He Hm Hlt). reflexivity.
Qed.

(** ** Network steps *)

Lemma io_step_refl (w : World) : io_step w w.
Proof.
  split; [reflexivity |]. split.
  - exists []. rewrite app_nil_r. split; reflexivity.
  - exists 0%nat. reflexivity.
Qed.

Lemma io_step_trans (w1 w2 w3 : World) : io_step w1 w2 -> io_step w2 w3 -> io_step w1 w3.
Proof.
  intros (T1 & (e1 & E1 & F1) & (k1 & K1)) (T2 & (e2 & E2 & F2) & (k2 & K2)).
  split; [congruence |]. split.
  - exists (e1 ++ e2)%list. rewrite E2, E1, <- app_assoc. split; [reflexivity |].
    rewrite forallb_app, F1, F2. reflexivity.
  - exists (k2 + k1)%nat. rewrite K2, K1. apply skipn_skipn.
Qed.

Lemma io_step_one (c : QSwarmController) (o o' : OS) (t : list Event) (e : Event) (k : nat) :
  is_traffic e = true ->
  recv_ret o' = skipn k (recv_ret o) ->
  io_step {| this := c; os := o; trace := t |} {| this := c; os := o'; trace := t ++ [e] |}.
Proof.
  intros He Hk. split; [reflexivity |]. split.
  - exists [e]. simpl. rewrite He. split; reflexivity.
  - exists k. exact Hk.
Qed.

Lemma SendMessage_run (message : string) (w : World) :
  exists w',
    SendMessage message w = Returns (send_succeeds w) w' /\
    io_step w w' /\ recv_ret (os w') = recv_ret (os w).
Proof.
  destruct w as [c [so co se re ra] t].
  unfold SendMessage, send_succeeds, bind at 1, self. simpl.
  destruct ((m_nSocket c <? 0) || negb (m_bConnected c)); simpl.
  - eexists. split; [reflexivity |]. split; [apply io_step_refl | reflexivity].
  - unfold sys_send, bind, the_os, emit, with_os, ret. simpl.
    destruct se as [| n se]; simpl; eexists; (split; [reflexivity |]);
      (split; [apply io_step_one with (k := 0%nat); reflexivity | reflexivity]).
Qed.

Lemma ReceiveMessage_run (w : World) :
  exists w',
    ReceiveMessage w =
    Returns (if (m_nSocket (this w) <? 0) || negb (m_bConnected (this w)) then ""
             else received_message (hd "" (recv_ret (os w)))) w' /\
    io_step w w'.
Proof.
  destruct w as [c [so co se re ra] t].
  unfold ReceiveMessage, bind at 1, self. simpl.
  destruct ((m_nSocket c <? 0) || negb (m_bConnected c)); simpl.
  - eexists. split; [reflexivity | apply io_step_refl].
  - unfold sys_recv, bind, the_os, emit, with_os, ret, received_message.
    destruct re as [| r re].
    + eexists. split; [reflexivity |]. apply io_step_one with (k := 0%nat); reflexivity.
    + cbv beta iota delta [os recv_ret hd trace this socket_ret connect_ret send_ret rand_ret].
      destruct (0 <? Z.of_nat (String.length (Str.take 4095 r)));
        eexists; (split; [reflexivity |]);
        apply io_step_one with (k := 1%nat); reflexivity.
Qed.

Lemma sys_rand_run (w : World) :
  exists w', sys_rand w = Returns (next_rand (os w)) w' /\ io_step w w'.
Proof.
  destruct w as [c [so co se re ra] t].
  unfold sys_rand, next_rand, bind, the_os, with_os, ret. simpl.
  destruct ra as [| r ra]; eexists; (split; [reflexivity |]).
  - apply io_step_refl.
  - split; [reflexivity |]. split.
    + exists []. simpl. rewrite app_nil_r. split; reflexivity.
    + exists 0%nat. reflexivity.
Qed.

(** The decoding steps of [GetActionFromQNetwork], after the reply has
    been found non-empty, are those of [decode]. *)
Lemma decode_run (response : string) (w : World) :
  Str.empty response = false ->
  match Str.find "|" response with
  | Some pos =>
      actionStr <- lift (Str.substr response (pos + 1)) ;; lift (Str.stoi actionStr)
  | None => ret 0
  end w
  = match decode response with
    | inr a => Returns a w
    | inl e => Throws e w
    end.
Proof.
  intros Hne. unfold decode. rewrite Hne.
  destruct (Str.find "|" response) as [pos |]; [| reflexivity].
  unfold bind, lift.
  destruct (Str.substr response (pos + 1)) as [e | actionStr]; [reflexivity |].
  unfold ret. destruct (Str.stoi actionStr); reflexivity.
Qed.

Lemma decode_empty (response : string) : Str.empty response = true -> decode response = inr 0.
Proof. intros H. unfold decode. rewrite H. reflexivity. Qed.

Lemma GetActionFromQNetwork_run (state : list F32.float) (w : World) :
  exists w',
    GetActionFromQNetwork state w =
    match action_reply w with
    | inr a => Returns a w'
    | inl e => Throws e w'
    end /\
    io_step w w'.
Proof.
  unfold GetActionFromQNetwork, action_reply, bind at 1, self.
  destruct (m_bConnected (this w)) eqn:Hc; simpl.
  - unfold bind at 1.
    destruct (SendMessage_run (state_message (m_nRobotIdNum (this w)) state) w)
      as (w1 & E1 & S1 & R1).
    rewrite E1. pose proof S1 as (T1 & _).
    destruct (send_succeeds w) eqn:Hs; simpl.
    + unfold bind at 1.
      destruct (ReceiveMessage_run w1) as (w2 & E2 & S2). rewrite E2.
      assert (Hg : (m_nSocket (this w1) <? 0) || negb (m_bConnected (this w1)) = false).
      { rewrite T1. unfold send_succeeds in Hs.
        destruct ((m_nSocket (this w) <? 0) || negb (m_bConnected (this w)));
          [discriminate | reflexivity]. }
      rewrite Hg, R1.
      exists w2. split; [| eapply io_step_trans; eassumption].
      destruct (Str.empty (received_message (hd "" (recv_ret (os w))))) eqn:He.
      * rewrite (decode_empty _ He). reflexivity.
      * apply decode_run. exact He.
    + exists w1. split; [reflexivity | exact S1].
  - unfold bind. destruct (sys_rand_run w) as (w1 & E1 & S1). rewrite E1.
    exists w1. split; [reflexivity | exact S1].
Qed.

Lemma SendReward_run (reward : F32.float) (done : bool) (w : World) :
  exists w', SendReward reward done w = Returns tt w' /\ io_step w w'.
Proof.
  unfold SendReward, bind at 1, self.
  destruct (m_bConnected (this w)); simpl.
  - unfold bind at 1.
    destruct (SendMessage_run (reward_message (m_nRobotIdNum (this w)) reward done) w)
      as (w1 & E1 & S1 & _).
    rewrite E1. unfold bind.
    destruct (ReceiveMessage_run w1) as (w2 & E2 & S2). rewrite E2.
    exists w2. split; [reflexivity | eapply io_step_trans; eassumption].
  - exists w. split; [reflexivity | apply io_step_refl].
Qed.

(** ** The Running branch *)

Lemma ControlStep_running (s : Sensors) (w : World) :
  Running (this w) ->
  exists w',
    match action_reply w with
    | inr a => ControlStep s w = Returns tt w' /\ tick_result s w w' a
    | inl e =>
        ControlStep s w = Throws e w' /\
        this w' = set_nSteps (Int32.incr (m_nSteps (this w))) (this w) /\
        exists evs, trace w' = trace w ++ evs /\ forallb is_traffic evs = true
    end.
Proof.
  intros (Hlt & Hnd).
  remember (ControlStep s w) as o eqn:Ho.
  unfold ControlStep, bind at 1, self in Ho.
  replace (m_nEpisode (this w) >=? m_nMaxEpisodes (this w)) with false in Ho
    by (symmetry; rewrite Z.geb_leb, Z.leb_gt; lia).
  rewrite Hnd in Ho. unfold bind at 1, assign in Ho.
  set (w1 := {| this := set_nSteps (Int32.incr (m_nSteps (this w))) (this w);
                os := os w; trace := trace w |}) in Ho.
  unfold bind at 1, GetState, bind at 1, self, ret in Ho.
  unfold bind at 1 in Ho.
  match type of Ho with context [GetActionFromQNetwork ?st w1] =>
    destruct (GetActionFromQNetwork_run st w1) as (w2 & E & (T2 & (ev2 & Tr2 & F2) & (k2 & K2)));
    rewrite E in Ho; clear E
  end.
  change (action_reply w1) with (action_reply w) in Ho.
  destruct (action_reply w) as [e | a].
  - exists w2. split; [exact Ho |]. split; [exact T2 |]. exists ev2. split; [exact Tr2 | exact F2].
  - destruct w2 as [c2 o2 t2]. simpl in T2, Tr2, K2. subst c2 t2.
    unfold bind at 1 in Ho. rewrite ExecuteAction_run in Ho.
    unfold bind at 1 in Ho. rewrite CalculateReward_run in Ho.
    cbn [this os trace] in Ho.
    change (evaluate (set_nSteps (Int32.incr (m_nSteps (this w))) (this w)) s)
      with (evaluate (this w) s) in Ho.
    change (goal_reached (set_nSteps (Int32.incr (m_nSteps (this w))) (this w)) s)
      with (goal_reached (this w) s) in Ho.
    destruct (evaluate (this w) s) as [reward done] eqn:Ev.
    unfold bind at 1, self in Ho. unfold bind at 1, assign in Ho.
    cbn [this os trace] in Ho.
    unfold bind at 1 in Ho.
    match type of Ho with context [SendReward reward done ?w4] =>
      destruct (SendReward_run reward done w4) as (w5 & E5 & (T5 & (ev5 & Tr5 & F5) & (k5 & K5)));
      rewrite E5 in Ho; clear E5
    end.
    destruct w5 as [c5 o5 t5]. cbn [this os trace] in T5, Tr5, K5. subst c5 t5.
    unfold bind at 1, self in Ho. cbn [this os trace] in Ho.
    assert (HK : exists k, recv_ret o5 = skipn k (recv_ret (os w))).
    { exists (k5 + k2)%nat. rewrite K5, K2. apply skipn_skipn. }
    assert (HT : exists before after,
               (((trace w ++ ev2) ++ [wheel_command (m_fVelocity (this w)) a]) ++ ev5
                = trace w ++ before ++ [wheel_command (m_fVelocity (this w)) a] ++ after)%list
               /\ forallb is_traffic before = true /\ forallb is_traffic after = true).
    { exists ev2, ev5. rewrite <- !app_assoc. auto. }
    clear K2 K5 F2 F5. subst w1.
    destruct w as [c ow tw]. cbn [this os trace] in *.
    destruct c. cbn in Hnd, Hlt. subst.
    unfold tick_result, local_update. cbn [this os trace]. rewrite Ev.
    destruct (goal_reached _ s) eqn:G; cbn in *;
      match goal with |- context [done || ?b] => destruct (done || b) end;
      eexists; (split; [reflexivity |]); cbn; (split; [reflexivity |]);
      (split; [exact HT | exact HK]).
Qed.

Lemma local_update_frame (c : QSwarmController) (s : Sensors) :
  m_nEpisode (local_update c s) = m_nEpisode c /\
  m_nRobotIdNum (local_update c s) = m_nRobotIdNum c /\
  m_nMaxSteps (local_update c s) = m_nMaxSteps c /\
  m_nMaxEpisodes (local_update c s) = m_nMaxEpisodes c /\
  m_nSocket (local_update c s) = m_nSocket c /\
  m_bConnected (local_update c s) = m_bConnected c.
Proof. repeat split. Qed.

(** C6. A tick entered with [m_bEpisodeDone] set and
    [m_nEpisode < m_nMaxEpisodes] performs exactly the episode reset:
    the episode index grows by one, step count and reward return to 0,
    the flag is cleared, the current position is snapshotted, the wheels
    are stopped and no system call is made.  In every other situation a
    tick, whether it returns or throws, leaves the episode index alone. *)
Theorem C6_episode_reset (s : Sensors) (w : World) :
  ints_in_range (this w) ->
  (m_nEpisode (this w) < m_nMaxEpisodes (this w) /\ m_bEpisodeDone (this w) = true ->
   ControlStep s w =
   Returns tt
     {| this :=
          {| m_strRobotId := m_strRobotId (this w);
             m_nRobotIdNum := m_nRobotIdNum (this w);
             m_cGoalPosition := m_cGoalPosition (this w);
             m_nEpisode := m_nEpisode (this w) + 1;
             m_nSteps := 0;
             m_nMaxSteps := m_nMaxSteps (this w);
             m_nMaxEpisodes := m_nMaxEpisodes (this w);
             m_nSocket := m_nSocket (this w);
             m_bConnected := m_bConnected (this w);
             m_cPreviousPosition := currentPos s;
             m_fVelocity := m_fVelocity (this w);
             m_fCollisionThreshold := m_fCollisionThreshold (this w);
             m_fGoalThreshold := m_fGoalThreshold (this w);
             m_bEpisodeDone := false;
             m_fEpisodeReward := F32.zero |};
        os := os w;
        trace := trace w ++ [stop_command] |}) /\
  (~ (m_nEpisode (this w) < m_nMaxEpisodes (this w) /\ m_bEpisodeDone (this w) = true) ->
   m_nEpisode (this (world_of (ControlStep s w))) = m_nEpisode (this w)).
Proof.
  intros Hr. split.
  - intros Hd. rewrite (ControlStep_episode_done s w Hr Hd). reflexivity.
  - intros Hn.
    destruct (Z_lt_ge_dec (m_nEpisode (this w)) (m_nMaxEpisodes (this w))) as [Hlt | Hge].
    + assert (Hrun : Running (this w)).
      { split; [exact Hlt |]. destruct (m_bEpisodeDone (this w)); [| reflexivity].
        exfalso. apply Hn. split; [exact Hlt | reflexivity]. }
      destruct (ControlStep_running s w Hrun) as (w' & H).
      destruct (action_reply w) as [e | a].
      * destruct H as (E & T & _). rewrite E. simpl. rewrite T. reflexivity.
      * destruct H as (E & T & _). rewrite E. simpl. rewrite T. reflexivity.
    + rewrite (ControlStep_finished s w Hge). reflexivity.
Qed.

(** ** Protocol failures *)

Lemma hiccup_action_reply (w : World) (h : Hiccup) :
  hiccup w = Some h -> action_reply w = inr (fallback_action w h).
Proof.
  unfold hiccup, action_reply.
  destruct (negb (m_bConnected (this w))).
  - intros H. injection H as <-. reflexivity.
  - destruct (negb (send_succeeds w)).
    + intros H. injection H as <-. reflexivity.
    + destruct (Str.empty (received_message (hd "" (recv_ret (os w))))) eqn:He;
        [| discriminate].
      intros H. injection H as <-. apply decode_empty. exact He.
Qed.

Lemma fallback_action_bounds (w : World) (h : Hiccup) : 0 <= fallback_action w h <= 3.
Proof.
  destruct h; simpl; try lia.
  assert (0 <= next_rand (os w)) by (unfold next_rand; destruct (rand_ret (os w)); lia).
  pose proof (Z.rem_bound_pos (next_rand (os w)) 4 H ltac:(lia)). lia.
Qed.

Lemma ControlStep_returns_local (s : Sensors) (w w' : World) :
  Running (this w) ->
  ControlStep s w = Returns tt w' ->
  this w' = local_update (this w) s.
Proof.
  intros Hrun E. destruct (ControlStep_running s w Hrun) as (w1 & H).
  destruct (action_reply w) as [e | a].
  - destruct H as (E1 & _). congruence.
  - destruct H as (E1 & T & _). rewrite E1 in E. injection E as <-. exact T.
Qed.

(** C8. In a [Running] tick, when the agent is disconnected the action
    request returns [rand() % 4], one of 0, 1, 2, 3; when it is connected
    but the state cannot be sent, or the reply is empty, the request
    returns 0.  In each case the tick returns normally, issues the wheel
    command of that action (its only actuator command), and leaves the
    object as the sensors alone dictate: step count, previous position,
    accumulated reward and done flag are those of any tick that returns
    from the same object, whatever the network did. *)
Theorem C8_hiccups_are_absorbed (s : Sensors) (w : World) (h : Hiccup) :
  Running (this w) ->
  hiccup w = Some h ->
  0 <= fallback_action w h <= 3 /\
  (forall state, exists w1,
      GetActionFromQNetwork state w = Returns (fallback_action w h) w1) /\
  exists w',
    ControlStep s w = Returns tt w' /\
    this w' = local_update (this w) s /\
    m_fEpisodeReward (this w') =
      F32.add (m_fEpisodeReward (this w)) (fst (evaluate (this w) s)) /\
    m_bEpisodeDone (this w') =
      (snd (evaluate (this w) s)
       || (Int32.incr (m_nSteps (this w)) >=? m_nMaxSteps (this w))) /\
    (exists before after,
        trace w' = trace w ++ before
                     ++ [wheel_command (m_fVelocity (this w)) (fallback_action w h)]
                     ++ after /\
        forallb is_traffic before = true /\ forallb is_traffic after = true) /\
    (forall v v', this v = this w -> ControlStep s v = Returns tt v' -> this v' = this w').
Proof.
  intros Hrun Hh. pose proof (hiccup_action_reply w h Hh) as Ha.
  split; [apply fallback_action_bounds |]. split.
  - intros state. destruct (GetActionFromQNetwork_run state w) as (w1 & E & _).
    rewrite Ha in E. exists w1. exact E.
  - destruct (ControlStep_running s w Hrun) as (w' & H). rewrite Ha in H.
    destruct H as (E & T & Htr & _). exists w'.
    split; [exact E |]. split; [exact T |].
    split; [rewrite T; reflexivity |]. split; [rewrite T; reflexivity |].
    split; [exact Htr |].
    intros v v' Hv Ev. rewrite T, <- Hv.
    apply ControlStep_returns_local; [rewrite Hv; exact Hrun | exact Ev].
Qed.


(** ** Uneventful episodes *)

Lemma uneventful_ext (c c' : QSwarmController) (previous : CVector2 Real)
      (ticks : list Sensors) :
  m_cGoalPosition c' = m_cGoalPosition c ->
  m_fGoalThreshold c' = m_fGoalThreshold c ->
  m_fCollisionThreshold c' = m_fCollisionThreshold c ->
  uneventful c' previous ticks = uneventful c previous ticks.
Proof.
  intros Hg Ht Hc. revert previous.
  induction ticks as [| s rest IH]; intros previous; simpl; [reflexivity |].
  rewrite IH. unfold goal_reached, collision, failed_to_move. simpl.
  rewrite Hg, Ht, Hc. reflexivity.
Qed.

Lemma received_message_nothing : received_message "" = "".
Proof. reflexivity. Qed.

Lemma decodable_reply (w : World) :
  forallb decodable (recv_ret (os w)) = true -> exists a, action_reply w = inr a.
Proof.
  intros H. unfold action_reply.
  destruct (negb (m_bConnected (this w))); [eexists; reflexivity |].
  destruct (negb (send_succeeds w)); [eexists; reflexivity |].
  destruct (recv_ret (os w)) as [| r rest].
  - exists 0. cbn [hd]. rewrite received_message_nothing. reflexivity.
  - cbn [forallb] in H. apply andb_true_iff in H. destruct H as (H & _).
    unfold decodable in H. cbn [hd].
    destruct (decode (received_message r)) as [e | a]; [discriminate | exists a; reflexivity].
Qed.

Lemma forallb_skipn {A} (f : A -> bool) (k : nat) (l : list A) :
  forallb f l = true -> forallb f (skipn k l) = true.
Proof.
  revert l. induction k as [| k IH]; intros l H; [exact H |].
  destruct l as [| x l]; [reflexivity |].
  simpl in *. apply andb_true_iff in H. apply IH. tauto.
Qed.

Lemma uneventful_tick (s : Sensors) (w : World) :
  Running (this w) ->
  forallb decodable (recv_ret (os w)) = true ->
  goal_reached (this w) s = false ->
  collision (this w) s = false ->
  exists w',
    ControlStep s w = Returns tt w' /\
    this w' =
      set_bEpisodeDone (Int32.incr (m_nSteps (this w)) >=? m_nMaxSteps (this w))
        (set_fEpisodeReward (F32.add (m_fEpisodeReward (this w)) F32.minus_tenth)
           (set_cPreviousPosition (currentPos s)
              (set_nSteps (Int32.incr (m_nSteps (this w))) (this w)))) /\
    forallb decodable (recv_ret (os w')) = true.
Proof.
  intros Hrun Hdec Hg Hc.
  destruct (decodable_reply w Hdec) as (a & Ha).
  destruct (ControlStep_running s w Hrun) as (w' & H). rewrite Ha in H.
  destruct H as (E & T & _ & (k & K)).
  exists w'. split; [exact E |]. split.
  - rewrite T. unfold local_update, evaluate. rewrite Hg, Hc. reflexivity.
  - rewrite K. apply forallb_skipn. exact Hdec.
Qed.

Lemma after_uneventful_cons (c : QSwarmController) (s : Sensors) (rest : list Sensors) :
  rest <> [] ->
  after_uneventful
    (set_bEpisodeDone false
       (set_fEpisodeReward (F32.add (m_fEpisodeReward c) F32.minus_tenth)
          (set_cPreviousPosition (currentPos s) (set_nSteps (m_nSteps c + 1) c))))
    rest
  = after_uneventful c (s :: rest).
Proof.
  intros Hne. destruct rest as [| s2 rest']; [congruence |]. clear Hne.
  unfold after_uneventful.
  change (List.length (s :: s2 :: rest')) with (S (List.length (s2 :: rest'))).
  rewrite Nat2Z.inj_succ.
  replace (m_nSteps c + Z.succ (Z.of_nat (List.length (s2 :: rest'))))
    with (m_nSteps c + 1 + Z.of_nat (List.length (s2 :: rest'))) by lia.
  remember (Z.of_nat (List.length (s2 :: rest'))) as z.
  reflexivity.
Qed.

Lemma run_ticks_uneventful (ticks : list Sensors) :
  forall w : World,
    Running (this w) ->
    Int32.in_range (m_nMaxSteps (this w)) ->
    0 <= m_nSteps (this w) ->
    forallb decodable (recv_ret (os w)) = true ->
    uneventful (this w) (m_cPreviousPosition (this w)) ticks = true ->
    m_nSteps (this w) + Z.of_nat (List.length ticks) <= m_nMaxSteps (this w) ->
    exists w',
      run_ticks ticks w = Returns tt w' /\
      this w' = after_uneventful (this w) ticks.
Proof.
  induction ticks as [| s rest IH]; intros w Hrun Hmax Hpos Hdec Hun Hlen.
  - exists w. split; [reflexivity |].
    unfold after_uneventful. simpl. destruct Hrun as (_ & Hd).
    destruct (this w). simpl in *. subst. rewrite Z.add_0_r. reflexivity.
  - simpl in Hun. apply andb_true_iff in Hun. destruct Hun as (Hun & Hrest).
    apply andb_true_iff in Hun. destruct Hun as (Hg & Hc).
    apply negb_true_iff in Hg. apply negb_true_iff in Hc.
    destruct (uneventful_tick s w Hrun Hdec Hg) as (w1 & E1 & T1 & D1).
    { rewrite <- Hc. reflexivity. }
    assert (Hincr : Int32.incr (m_nSteps (this w)) = m_nSteps (this w) + 1).
    { simpl List.length in Hlen. unfold Int32.incr. apply Int32Facts.wrap_id.
      unfold Int32.in_range, Int32.INT_MIN, Int32.INT_MAX in *. lia. }
    rewrite Hincr in T1.
    simpl run_ticks. unfold bind. rewrite E1.
    destruct rest as [| s2 rest'].
    + exists w1. split; [reflexivity |]. rewrite T1.
      unfold after_uneventful. simpl. reflexivity.
    + assert (Hlt : (m_nSteps (this w) + 1 >=? m_nMaxSteps (this w)) = false).
      { simpl List.length in Hlen. rewrite Z.geb_leb, Z.leb_gt. lia. }
      rewrite Hlt in T1.
      destruct (IH w1) as (w2 & E2 & T2).
      * rewrite T1. destruct Hrun as (He & Hd). split; [exact He | reflexivity].
      * rewrite T1. exact Hmax.
      * rewrite T1. simpl. lia.
      * exact D1.
      * rewrite T1. simpl m_cPreviousPosition.
        rewrite <- Hrest. apply uneventful_ext; reflexivity.
      * rewrite T1. simpl m_nSteps. simpl m_nMaxSteps.
        change (List.length (s :: s2 :: rest')) with (S (List.length (s2 :: rest'))) in Hlen.
        lia.
      * exists w2. split; [exact E2 |]. rewrite T2, T1.
        apply after_uneventful_cons. discriminate.
Qed.


Lemma uneventful_firstn (c : QSwarmController) (n : nat) (ticks : list Sensors) :
  forall previous,
    uneventful c previous ticks = true -> uneventful c previous (firstn n ticks) = true.
Proof.
  revert n. induction ticks as [| s rest IH]; intros n previous H.
  - destruct n; reflexivity.
  - destruct n as [| n]; [reflexivity |].
    simpl in *. apply andb_true_iff in H. destruct H as (H1 & H2).
    rewrite H1. simpl. apply IH. exact H2.
Qed.

(** ** Init and the robot's id *)

Lemma mem_digits (c : ascii) : Str.mem c "0123456789" = Str.isdigit c.
Proof.
  destruct c as [b0 b1 b2 b3 b4 b5 b6 b7].
  destruct b0, b1, b2, b3, b4, b5, b6, b7; reflexivity.
Qed.

Lemma digits_value_no_digit (post : string) (k : nat) (acc : Z) :
  Str.find_last_of_from "0123456789" post k = None -> Str.digits_value acc post = acc.
Proof.
  destruct post as [| d post']; [reflexivity |].
  cbn [Str.find_last_of_from].
  destruct (Str.find_last_of_from "0123456789" post' (S k)); [discriminate |].
  rewrite mem_digits. cbn [Str.digits_value].
  destruct (Str.isdigit d); [discriminate | reflexivity].
Qed.

Lemma last_digit_none (s : string) (k : nat) :
  Str.find_last_of_from "0123456789" s k = None -> last_digit s = None.
Proof.
  revert k. induction s as [| c s IH]; intros k; [reflexivity |].
  cbn [Str.find_last_of_from]. cbn [last_digit].
  destruct (Str.find_last_of_from "0123456789" s (S k)) eqn:E; [discriminate |].
  rewrite (IH _ E), mem_digits.
  destruct (Str.isdigit c); [discriminate | reflexivity].
Qed.

Lemma stoi_one_digit (c : ascii) (post : string) :
  Str.isdigit c = true ->
  (forall acc, Str.digits_value acc post = acc) ->
  Str.stoi (String c post) = inr (Str.digit_value c) /\ 0 <= Str.digit_value c <= 9.
Proof.
  intros Hd Hpost.
  destruct c as [b0 b1 b2 b3 b4 b5 b6 b7].
  destruct b0, b1, b2, b3, b4, b5, b6, b7; try discriminate Hd;
    (split; [| vm_compute; split; discriminate]);
    unfold Str.stoi; cbn [Str.skip_spaces]; cbv [Str.isspace Str.code]; cbn;
    rewrite Hpost; reflexivity.
Qed.

(** What [find_last_of], [substr] and [std::stoi] make of a name: the
    value of its last digit, and never an exception. *)
Lemma id_parse (name : string) (k : nat) :
  match Str.find_last_of_from "0123456789" name k with
  | Some pos =>
      exists d,
        (k <= pos < k + String.length name)%nat /\
        Str.stoi (Str.drop (pos - k) name) = inr d /\
        0 <= d <= 9 /\ last_digit name = Some d
  | None => last_digit name = None
  end.
Proof.
  revert k. induction name as [| c rest IH]; intros k; [reflexivity |].
  cbn [Str.find_last_of_from]. cbn [last_digit]. specialize (IH (S k)).
  destruct (Str.find_last_of_from "0123456789" rest (S k)) as [pos |] eqn:E.
  - destruct IH as (d & Hpos & Hstoi & Hd & Hl). exists d.
    split; [simpl String.length; lia |].
    replace (pos - k)%nat with (S (pos - S k)) by lia.
    rewrite Hl. auto.
  - rewrite IH, mem_digits. destruct (Str.isdigit c) eqn:Hc; [| reflexivity].
    destruct (stoi_one_digit c rest Hc) as (Hs & Hb).
    { intros acc. apply (digits_value_no_digit rest (S k)). exact E. }
    exists (Str.digit_value c). rewrite Nat.sub_diag.
    split; [simpl String.length; lia |]. auto.
Qed.


Lemma sys_connect_run (fd : Z) (w : World) :
  exists r w', sys_connect fd w = Returns r w' /\ this w' = this w.
Proof.
  destruct w as [c [so co se re ra] t].
  unfold sys_connect, bind, the_os, emit, with_os, ret. simpl.
  destruct co as [| r co]; eexists; eexists; split; reflexivity.
Qed.

Lemma connect_loop_run (fd : Z) (retries : nat) :
  forall w, exists b w',
    connect_loop fd retries w = Returns b w' /\
    this w' = set_bConnected (m_bConnected (this w')) (this w).
Proof.
  induction retries as [| k IH]; intros w.
  - exists false, w. split; [reflexivity |]. destruct (this w); reflexivity.
  - cbn [connect_loop]. unfold bind at 1.
    destruct (sys_connect_run fd w) as (r & w1 & E1 & T1). rewrite E1.
    destruct (r =? 0).
    + eexists. eexists. split; [reflexivity |]. simpl. rewrite T1. reflexivity.
    + unfold bind at 1, emit.
      match goal with |- context [connect_loop fd k ?w2] =>
        destruct (IH w2) as (b & w' & E & T)
      end.
      exists b, w'. split; [exact E |]. rewrite T. simpl. rewrite T1. reflexivity.
Qed.

Lemma ConnectToQNetwork_run (w : World) :
  exists b w',
    ConnectToQNetwork w = Returns b w' /\
    this w' = set_bConnected (m_bConnected (this w'))
                (set_nSocket (m_nSocket (this w')) (this w)).
Proof.
  destruct w as [c [so co se re ra] t].
  unfold ConnectToQNetwork, bind at 1, sys_socket, bind, the_os, emit, with_os, ret, assign.
  cbn [os socket_ret this trace].
  destruct so as [| fd so]; cbn [this os trace].
  - eexists. eexists. split; [reflexivity |]. destruct c; reflexivity.
  - destruct (fd <? 0).
    + eexists. eexists. split; [reflexivity |]. destruct c; reflexivity.
    + match goal with |- context [connect_loop fd 10 ?w2] =>
        destruct (connect_loop_run fd 10 w2) as (b & w' & E & T)
      end.
      exists b, w'. split; [exact E |]. rewrite T. destruct c; reflexivity.
Qed.

Lemma GetNodeAttributeOrDefault_run {A} (attribute : Attribute A)
      (store : A -> QSwarmController -> QSwarmController) (d : A) (w : World) :
  GetNodeAttributeOrDefault attribute store d w =
    (if readable attribute then Returns tt else Throws Str.CARGoSException)
      {| this := store (stored attribute d) (this w); os := os w; trace := trace w |}.
Proof.
  destruct attribute; reflexivity.
Qed.

Ltac read_attribute Ho :=
  rewrite GetNodeAttributeOrDefault_run in Ho; cbn [this os trace] in Ho;
  match type of Ho with context [readable ?a] =>
    destruct (readable a);
    [ cbn [andb]
    | cbn [andb];
      match type of Ho with _ = Throws _ {| this := ?c; os := _; trace := _ |} =>
        exists c; split; [reflexivity |]; split; [reflexivity |];
        split; [discriminate | exact Ho]
      end ]
  end.

(** [Init] up to its call of [ConnectToQNetwork]: the id is parsed without
    throwing, and the attributes are read in turn until one is unreadable. *)
Lemma Init_reads (name : string) (t_node : Configuration) (s : Sensors) (w : World) :
  exists c',
    m_strRobotId c' = name /\
    m_nRobotIdNum c' = robot_id name (m_nRobotIdNum (this w)) /\
    (all_readable t_node = true -> c' = configured name t_node s (this w)) /\
    Init name t_node s w =
      if all_readable t_node
      then (ConnectToQNetwork ;; ret tt) {| this := c'; os := os w; trace := trace w |}
      else Throws Str.CARGoSException {| this := c'; os := os w; trace := trace w |}.
Proof.
  remember (Init name t_node s w) as o eqn:Ho.
  unfold Init, Str.find_last_of, Str.substr in Ho.
  cbv [bind lift ret assign self] in Ho.
  cbn [this os trace m_strRobotId set_strRobotId] in Ho.
  unfold configured, robot_id, all_readable, goal_default.
  pose proof (id_parse name 0) as Hid.
  destruct (Str.find_last_of_from "0123456789" name 0) as [pos |].
  - destruct Hid as (d & Hpos & Hstoi & _ & Hl). rewrite Hl.
    rewrite Nat.sub_0_r in Hstoi.
    replace (pos <=? String.length name)%nat with true in Ho
      by (symmetry; apply Nat.leb_le; lia).
    rewrite Hstoi in Ho. cbn [this os trace] in Ho.
    read_attribute Ho. read_attribute Ho. read_attribute Ho.
    read_attribute Ho. read_attribute Ho.
    match type of Ho with context [ConnectToQNetwork {| this := ?c; os := _; trace := _ |}] =>
      exists c
    end.
    split; [reflexivity |]. split; [reflexivity |].
    split; [intros _; reflexivity | exact Ho].
  - rewrite Hid. cbn [this os trace] in Ho.
    read_attribute Ho. read_attribute Ho. read_attribute Ho.
    read_attribute Ho. read_attribute Ho.
    match type of Ho with context [ConnectToQNetwork {| this := ?c; os := _; trace := _ |}] =>
      exists c
    end.
    split; [reflexivity |]. split; [reflexivity |].
    split; [intros _; reflexivity | exact Ho].
Qed.

Lemma Init_run (name : string) (t_node : Configuration) (s : Sensors) (w : World) :
  exists w',
    Init name t_node s w
      = (if all_readable t_node then Returns tt w' else Throws Str.CARGoSException w') /\
    m_strRobotId (this w') = name /\
    m_nRobotIdNum (this w') = robot_id name (m_nRobotIdNum (this w)).
Proof.
  destruct (Init_reads name t_node s w) as (c' & Hname & Hid & _ & E).
  rewrite E. destruct (all_readable t_node).
  - unfold bind at 1.
    match goal with |- context [ConnectToQNetwork ?w2] =>
      destruct (ConnectToQNetwork_run w2) as (b & w' & Ec & T); rewrite Ec
    end.
    exists w'. split; [reflexivity |]. rewrite T. split; assumption.
  - eexists. split; [reflexivity |]. split; assumption.
Qed.

Lemma ControlStep_preserves_id (s : Sensors) (w : World) :
  m_nRobotIdNum (this (world_of (ControlStep s w))) = m_nRobotIdNum (this w).
Proof.
  destruct (Z_lt_ge_dec (m_nEpisode (this w)) (m_nMaxEpisodes (this w))) as [Hlt | Hge].
  - destruct (m_bEpisodeDone (this w)) eqn:Hd.
    + unfold ControlStep, bind at 1, self.
      replace (m_nEpisode (this w) >=? m_nMaxEpisodes (this w)) with false
        by (symmetry; rewrite Z.geb_leb, Z.leb_gt; lia).
      rewrite Hd. reflexivity.
    + destruct (ControlStep_running s w (conj Hlt Hd)) as (w' & H).
      destruct (action_reply w) as [e | a].
      * destruct H as (E & T & _). rewrite E. simpl. rewrite T. reflexivity.
      * destruct H as (E & T & _). rewrite E. simpl. rewrite T. reflexivity.
  - rewrite (ControlStep_finished s w Hge). reflexivity.
Qed.


Lemma decode_no_delimiter (response : string) :
  Str.find "|" response = None -> decode response = inr 0.
Proof.
  intros H. unfold decode. rewrite H. destruct (Str.empty response); reflexivity.
Qed.

Lemma no_command_among_traffic (evs : list Event) :
  forallb is_traffic evs = true -> filter (fun e => negb (is_traffic e)) evs = [].
Proof.
  induction evs as [| e evs IH]; intros H; [reflexivity |].
  simpl in *. apply andb_true_iff in H. destruct H as (He & Hr).
  rewrite He. simpl. apply IH. exact Hr.
Qed.

(** ** Messages carry the id *)

Lemma state_message_from (state : list F32.float) (head : string) :
  exists rest,
    fold_left (fun oss val => oss ++ "|" ++ show_float val)%string state head
    = (head ++ rest)%string.
Proof.
  revert head. induction state as [| v state IH]; intros head.
  - exists ""%string. clear. induction head as [| c head IH]; [reflexivity |].
    simpl. rewrite <- IH. reflexivity.
  - cbn [fold_left]. destruct (IH (head ++ "|" ++ show_float v)%string) as (rest & E).
    exists (("|" ++ show_float v) ++ rest)%string. rewrite E.
    clear. induction head as [| c head IH]; [reflexivity |].
    simpl. f_equal. exact IH.
Qed.

Lemma state_message_tag (id : Z) (state : list F32.float) :
  exists rest, state_message id state = ("STATE|" ++ Str.show_int id ++ rest)%string.
Proof.
  unfold state_message.
  destruct (state_message_from state ("STATE|" ++ Str.show_int id)%string) as (rest & E).
  exists rest. rewrite E. reflexivity.
Qed.

Lemma reward_message_tag (id : Z) (reward : F32.float) (done : bool) :
  exists rest, reward_message id reward done = ("REWARD|" ++ Str.show_int id ++ rest)%string.
Proof. eexists. reflexivity. Qed.

(** Each of the four ids is the fallback of some value of [rand()]. *)
Lemma every_action_is_drawn (a : Z) :
  0 <= a <= 3 -> exists r : N, Z.rem (Z.of_N r) 4 = a.
Proof.
  intros H. exists (Z.to_N a). rewrite Z2N.id by lia. apply Z.rem_small. lia.
Qed.

(** * Further properties of the methods *)

(** ** Exact runs of the transport *)

Lemma sys_send_exact (fd : Z) (bytes : string) (w : World) :
  sys_send fd bytes w =
  Returns (hd (-1) (send_ret (os w)))
          {| this := this w; os := pop_send (os w); trace := trace w ++ [Send fd bytes] |}.
Proof.
  destruct w as [c [so co se re ra] t].
  unfold sys_send, pop_send, bind, the_os, emit, with_os, ret. cbn [this os trace send_ret].
  destruct se as [| n se]; reflexivity.
Qed.

Lemma sys_recv_exact (fd : Z) (w : World) :
  sys_recv fd w =
  Returns (Str.take 4095 (hd "" (recv_ret (os w))))
          {| this := this w; os := pop_recv (os w); trace := trace w ++ [Recv fd] |}.
Proof.
  destruct w as [c [so co se re ra] t].
  unfold sys_recv, pop_recv, bind, the_os, emit, with_os, ret. cbn [this os trace recv_ret].
  destruct re as [| r re]; reflexivity.
Qed.

Lemma usable_guard (c : QSwarmController) :
  usable c -> (m_nSocket c <? 0) || negb (m_bConnected c) = false.
Proof.
  intros (Hs & Hc). rewrite Hc. apply orb_false_iff. split; [apply Z.ltb_ge; exact Hs | reflexivity].
Qed.

Lemma SendMessage_exact (message : string) (w : World) :
  usable (this w) ->
  SendMessage message w =
  Returns (0 <? hd (-1) (send_ret (os w)))
          {| this := this w; os := pop_send (os w);
             trace := trace w ++ [Send (m_nSocket (this w)) (framed message)] |}.
Proof.
  intros H. unfold SendMessage, bind at 1, self. rewrite (usable_guard _ H).
  unfold bind. rewrite sys_send_exact. reflexivity.
Qed.

Lemma ReceiveMessage_exact (w : World) :
  usable (this w) ->
  ReceiveMessage w =
  Returns (received_message (hd "" (recv_ret (os w))))
          {| this := this w; os := pop_recv (os w);
             trace := trace w ++ [Recv (m_nSocket (this w))] |}.
Proof.
  intros H. unfold ReceiveMessage, bind at 1, self. rewrite (usable_guard _ H).
  unfold bind. rewrite sys_recv_exact. unfold received_message, ret.
  destruct (0 <? Z.of_nat (String.length (Str.take 4095 (hd "" (recv_ret (os w))))));
    reflexivity.
Qed.

Lemma SendReward_exact (reward : F32.float) (done : bool) (w : World) :
  usable (this w) ->
  SendReward reward done w =
  Returns tt
    {| this := this w; os := pop_recv (pop_send (os w));
       trace := trace w ++ [Send (m_nSocket (this w))
                                 (framed (reward_message (m_nRobotIdNum (this w)) reward done));
                            Recv (m_nSocket (this w))] |}.
Proof.
  intros H. pose proof H as (_ & Hc).
  unfold SendReward, bind at 1, self. rewrite Hc. cbn [negb].
  unfold bind at 1. rewrite (SendMessage_exact _ w H).
  unfold bind at 1. rewrite ReceiveMessage_exact by exact H.
  cbn [this os trace]. unfold ret. rewrite <- app_assoc. reflexivity.
Qed.

Lemma GetActionFromQNetwork_exact (state : list F32.float) (w : World) :
  usable (this w) ->
  GetActionFromQNetwork state w =
  if 0 <? hd (-1) (send_ret (os w)) then
    let w' := {| this := this w; os := pop_recv (pop_send (os w));
                 trace := trace w ++ [Send (m_nSocket (this w))
                                           (framed (state_message (m_nRobotIdNum (this w)) state));
                                      Recv (m_nSocket (this w))] |} in
    match decode (received_message (hd "" (recv_ret (os w)))) with
    | inr a => Returns a w'
    | inl e => Throws e w'
    end
  else
    Returns 0 {| this := this w; os := pop_send (os w);
                 trace := trace w ++ [Send (m_nSocket (this w))
                                           (framed (state_message (m_nRobotIdNum (this w)) state))] |}.
Proof.
  intros H. pose proof H as (_ & Hc).
  unfold GetActionFromQNetwork, bind at 1, self. rewrite Hc. cbn [negb].
  unfold bind at 1. rewrite (SendMessage_exact _ w H).
  destruct (0 <? hd (-1) (send_ret (os w))); cbn [negb]; [| reflexivity].
  unfold bind at 1. rewrite ReceiveMessage_exact by exact H.
  cbn [this os trace pop_send recv_ret]. rewrite <- app_assoc. cbn [app].
  destruct (Str.empty (received_message (hd "" (recv_ret (os w))))) eqn:He.
  - rewrite (decode_empty _ He). reflexivity.
  - apply decode_run. exact He.
Qed.


(** ** The wire traffic of a tick *)

Lemma running_prefix (s : Sensors) (w : World) :
  Running (this w) ->
  ControlStep s w =
  (action <- GetActionFromQNetwork (observation (this w) s) ;;
   ExecuteAction action ;;
   '(reward, done) <- CalculateReward s ;;
   c <- self ;;
   assign (set_fEpisodeReward (F32.add (m_fEpisodeReward c) reward)) ;;
   SendReward reward done ;;
   c <- self ;;
   if done || (m_nSteps c >=? m_nMaxSteps c) then assign (set_bEpisodeDone true)
   else ret tt)
    {| this := set_nSteps (Int32.incr (m_nSteps (this w))) (this w);
       os := os w; trace := trace w |}.
Proof.
  intros (Hlt & Hnd). unfold ControlStep, bind at 1, self.
  replace (m_nEpisode (this w) >=? m_nMaxEpisodes (this w)) with false
    by (symmetry; rewrite Z.geb_leb, Z.leb_gt; lia).
  rewrite Hnd. reflexivity.
Qed.

(** After the action request returned [a] in world [w2], the rest of
    the tick for a usable connection. *)
Lemma running_suffix_usable (s : Sensors) (c : QSwarmController) (o2 : OS)
      (t2 : list Event) (a : Z) :
  usable c ->
  exists c',
    (ExecuteAction a ;;
     '(reward, done) <- CalculateReward s ;;
     c <- self ;;
     assign (set_fEpisodeReward (F32.add (m_fEpisodeReward c) reward)) ;;
     SendReward reward done ;;
     c <- self ;;
     if done || (m_nSteps c >=? m_nMaxSteps c) then assign (set_bEpisodeDone true)
     else ret tt)
      {| this := c; os := o2; trace := t2 |}
    = Returns tt
        {| this := c'; os := pop_recv (pop_send o2);
           trace := t2 ++ [wheel_command (m_fVelocity c) a;
                           Send (m_nSocket c) (reward_line c s);
                           Recv (m_nSocket c)] |}.
Proof.
  intros Hu. unfold bind at 1. rewrite ExecuteAction_run.
  unfold bind at 1. rewrite CalculateReward_run. cbn [this os trace].
  unfold reward_line. destruct (evaluate c s) as [reward done]. cbn [fst snd].
  unfold bind at 1, self. unfold bind at 1, assign. cbn [this os trace].
  unfold bind at 1.
  match goal with |- context [SendReward reward done ?w4] =>
    rewrite (SendReward_exact reward done w4)
  end.
  - cbn [this os trace]. unfold bind at 1.
    destruct (goal_reached c s); cbn [this os trace];
      match goal with |- context [done || ?b] => destruct (done || b) end;
      unfold assign, ret; cbn [this os trace]; rewrite <- app_assoc;
      eexists; reflexivity.
  - destruct Hu as (Hs & Hc). cbn [this]. destruct (goal_reached c s); split; assumption.
Qed.

Lemma running_suffix_disconnected (s : Sensors) (c : QSwarmController) (o2 : OS)
      (t2 : list Event) (a : Z) :
  m_bConnected c = false ->
  exists c',
    (ExecuteAction a ;;
     '(reward, done) <- CalculateReward s ;;
     c <- self ;;
     assign (set_fEpisodeReward (F32.add (m_fEpisodeReward c) reward)) ;;
     SendReward reward done ;;
     c <- self ;;
     if done || (m_nSteps c >=? m_nMaxSteps c) then assign (set_bEpisodeDone true)
     else ret tt)
      {| this := c; os := o2; trace := t2 |}
    = Returns tt
        {| this := c'; os := o2; trace := t2 ++ [wheel_command (m_fVelocity c) a] |}.
Proof.
  intros Hc. unfold bind at 1. rewrite ExecuteAction_run.
  unfold bind at 1. rewrite CalculateReward_run. cbn [this os trace].
  destruct (evaluate c s) as [reward done].
  unfold bind at 1, self. unfold bind at 1, assign. cbn [this os trace].
  unfold bind at 1, SendReward, bind at 1, self. cbn [this os trace].
  replace (m_bConnected
             (set_fEpisodeReward
                (F32.add (m_fEpisodeReward
                            (if goal_reached c s then c
                             else set_cPreviousPosition (currentPos s) c)) reward)
                (if goal_reached c s then c else set_cPreviousPosition (currentPos s) c)))
    with false by (destruct (goal_reached c s); symmetry; exact Hc).
  cbn [negb]. unfold ret at 1. unfold bind at 1. cbn [this os trace].
  match goal with |- context [done || ?b] => destruct (done || b) end;
    unfold assign, ret; cbn [this os trace]; eexists; reflexivity.
Qed.


Lemma stepped_usable (c : QSwarmController) (n : Z) : usable c -> usable (set_nSteps n c).
Proof. intros H. exact H. Qed.

Lemma wire_sequence_run (s : Sensors) (w : World) (a : Z) :
  Running (this w) ->
  usable (this w) ->
  0 < hd (-1) (send_ret (os w)) ->
  decode (received_message (hd "" (recv_ret (os w)))) = inr a ->
  ControlStep s w =
  Returns tt
    {| this := local_update (this w) s;
       os := pop_recv (pop_send (pop_recv (pop_send (os w))));
       trace := trace w ++
                [Send (m_nSocket (this w)) (state_line (this w) s);
                 Recv (m_nSocket (this w));
                 wheel_command (m_fVelocity (this w)) a;
                 Send (m_nSocket (this w)) (reward_line (this w) s);
                 Recv (m_nSocket (this w))] |}.
Proof.
  intros Hrun Hu Hsend Hdec.
  assert (E : exists c',
             ControlStep s w =
             Returns tt
               {| this := c';
                  os := pop_recv (pop_send (pop_recv (pop_send (os w))));
                  trace := trace w ++
                           [Send (m_nSocket (this w)) (state_line (this w) s);
                            Recv (m_nSocket (this w));
                            wheel_command (m_fVelocity (this w)) a;
                            Send (m_nSocket (this w)) (reward_line (this w) s);
                            Recv (m_nSocket (this w))] |}).
  { rewrite (running_prefix s w Hrun). unfold bind at 1.
    rewrite GetActionFromQNetwork_exact by (apply stepped_usable; exact Hu).
    cbn [this os trace]. apply Z.ltb_lt in Hsend. rewrite Hsend. cbv zeta.
    rewrite Hdec.
    match goal with |- exists _, _ {| this := ?c1; os := ?o2; trace := ?t2 |} = _ =>
      destruct (running_suffix_usable s c1 o2 t2 a (stepped_usable _ _ Hu)) as (c' & E)
    end.
    rewrite E. exists c'. rewrite <- app_assoc. reflexivity. }
  destruct E as (c' & E). rewrite E.
  rewrite <- (ControlStep_returns_local s w _ Hrun E). reflexivity.
Qed.

(** ** The text of the two messages *)

Lemma append_empty_r (s : string) : (s ++ "")%string = s.
Proof. induction s as [| c s IH]; [reflexivity |]. cbn. rewrite IH. reflexivity. Qed.

Lemma append_associative (a b c : string) : ((a ++ b) ++ c)%string = (a ++ (b ++ c))%string.
Proof. induction a as [| x a IH]; [reflexivity |]. cbn. rewrite IH. reflexivity. Qed.

Lemma concat_cons (x : string) (xs : list string) :
  String.concat "" (x :: xs) = (x ++ String.concat "" xs)%string.
Proof. destruct xs; [cbn; rewrite append_empty_r; reflexivity | reflexivity]. Qed.

Lemma state_message_text (id : Z) (state : list F32.float) :
  state_message id state
  = ("STATE|" ++ Str.show_int id
       ++ String.concat "" (map (fun v => "|" ++ show_float v) state))%string.
Proof.
  unfold state_message.
  assert (H : forall init,
             fold_left (fun oss val => (oss ++ "|" ++ show_float val)%string) state init
             = (init ++ String.concat "" (map (fun v => "|" ++ show_float v) state))%string).
  { induction state as [| v rest IH]; intros init.
    - cbn. rewrite append_empty_r. reflexivity.
    - cbn [fold_left map]. rewrite IH, concat_cons, append_associative. reflexivity. }
  rewrite H, append_associative. reflexivity.
Qed.

Lemma state_line_text (c : QSwarmController) (s : Sensors) :
  state_line c s
  = ("STATE|" ++ Str.show_int (m_nRobotIdNum c)
       ++ "|" ++ show_float (float_of_Real (GetX (Position s)))
       ++ "|" ++ show_float (float_of_Real (GetY (Position s)))
       ++ "|" ++ show_float (float_of_Real (GetX (m_cGoalPosition c)))
       ++ "|" ++ show_float (float_of_Real (GetY (m_cGoalPosition c)))
       ++ String.concat "" (map (fun v => "|" ++ show_float v)
                                (map float_of_Real (Readings s)))
       ++ String Str.newline "")%string.
Proof.
  unfold state_line, framed. rewrite state_message_text. unfold observation.
  cbn [app map]. rewrite !concat_cons, !append_associative. reflexivity.
Qed.

Lemma reward_line_text (c : QSwarmController) (s : Sensors) :
  reward_line c s
  = ("REWARD|" ++ Str.show_int (m_nRobotIdNum c)
       ++ "|" ++ show_float (fst (evaluate c s))
       ++ "|" ++ (if snd (evaluate c s) then "1" else "0")
       ++ String Str.newline "")%string.
Proof.
  unfold reward_line, framed, reward_message. rewrite !append_associative. reflexivity.
Qed.

(** X1. A [Running] tick over a usable connection whose state message
    is sent and whose reply decodes to [a] puts exactly this on the wire
    and the wheels, in this order: the state line, which is [STATE], the
    id, the position, the goal and the proximity readings, each after a
    bar, and a newline; one receive; the wheel command of [a]; the reward
    line, which is [REWARD], the id, the tick's reward and [1] or [0] for
    done, each after a bar, and a newline; one receive.  It consumes two
    send results and two replies, and the object is updated from the
    sensors alone. *)
Theorem tick_wire_sequence (s : Sensors) (w : World) (a : Z) :
  Running (this w) ->
  usable (this w) ->
  0 < hd (-1) (send_ret (os w)) ->
  decode (received_message (hd "" (recv_ret (os w)))) = inr a ->
  ControlStep s w =
  Returns tt
    {| this := local_update (this w) s;
       os := pop_recv (pop_send (pop_recv (pop_send (os w))));
       trace := trace w ++
                [Send (m_nSocket (this w))
                      ("STATE|" ++ Str.show_int (m_nRobotIdNum (this w))
                         ++ "|" ++ show_float (float_of_Real (GetX (Position s)))
                         ++ "|" ++ show_float (float_of_Real (GetY (Position s)))
                         ++ "|" ++ show_float (float_of_Real (GetX (m_cGoalPosition (this w))))
                         ++ "|" ++ show_float (float_of_Real (GetY (m_cGoalPosition (this w))))
                         ++ String.concat "" (map (fun v => "|" ++ show_float v)
                                                  (map float_of_Real (Readings s)))
                         ++ String Str.newline "")%string;
                 Recv (m_nSocket (this w));
                 wheel_command (m_fVelocity (this w)) a;
                 Send (m_nSocket (this w))
                      ("REWARD|" ++ Str.show_int (m_nRobotIdNum (this w))
                         ++ "|" ++ show_float (fst (evaluate (this w) s))
                         ++ "|" ++ (if snd (evaluate (this w) s) then "1" else "0")
                         ++ String Str.newline "")%string;
                 Recv (m_nSocket (this w))] |}.
Proof.
  intros Hrun Hu Hsend Hdec.
  rewrite (wire_sequence_run s w a Hrun Hu Hsend Hdec).
  rewrite state_line_text, reward_line_text. reflexivity.
Qed.

(** X2. When the state message cannot be sent (the connection still
    being usable), the tick asks for no reply, drives forward, and still
    sends the reward line and waits for its acknowledgment. *)
Theorem tick_after_failed_state_send (s : Sensors) (w : World) :
  Running (this w) ->
  usable (this w) ->
  hd (-1) (send_ret (os w)) <= 0 ->
  ControlStep s w =
  Returns tt
    {| this := local_update (this w) s;
       os := pop_recv (pop_send (pop_send (os w)));
       trace := trace w ++
                [Send (m_nSocket (this w)) (state_line (this w) s);
                 wheel_command (m_fVelocity (this w)) 0;
                 Send (m_nSocket (this w)) (reward_line (this w) s);
                 Recv (m_nSocket (this w))] |}.
Proof.
  intros Hrun Hu Hsend.
  assert (E : exists c',
             ControlStep s w =
             Returns tt
               {| this := c';
                  os := pop_recv (pop_send (pop_send (os w)));
                  trace := trace w ++
                           [Send (m_nSocket (this w)) (state_line (this w) s);
                            wheel_command (m_fVelocity (this w)) 0;
                            Send (m_nSocket (this w)) (reward_line (this w) s);
                            Recv (m_nSocket (this w))] |}).
  { rewrite (running_prefix s w Hrun). unfold bind at 1.
    rewrite GetActionFromQNetwork_exact by (apply stepped_usable; exact Hu).
    cbn [this os trace]. apply Z.ltb_ge in Hsend. rewrite Hsend.
    match goal with |- exists _, _ {| this := ?c1; os := ?o2; trace := ?t2 |} = _ =>
      destruct (running_suffix_usable s c1 o2 t2 0 (stepped_usable _ _ Hu)) as (c' & E)
    end.
    rewrite E. exists c'. rewrite <- app_assoc. reflexivity. }
  destruct E as (c' & E). rewrite E.
  rewrite <- (ControlStep_returns_local s w _ Hrun E). reflexivity.
Qed.

(** X3. When the reply makes [std::stoi] throw, the exception leaves
    the tick with the step already counted and the state line and one
    receive on the wire, and with nothing else: no wheel command, no
    reward added, no reward message, [m_bEpisodeDone] untouched. *)
Theorem tick_that_throws (s : Sensors) (w : World) (e : Str.exn) :
  Running (this w) ->
  usable (this w) ->
  0 < hd (-1) (send_ret (os w)) ->
  decode (received_message (hd "" (recv_ret (os w)))) = inl e ->
  ControlStep s w =
  Throws e
    {| this := set_nSteps (Int32.incr (m_nSteps (this w))) (this w);
       os := pop_recv (pop_send (os w));
       trace := trace w ++
                [Send (m_nSocket (this w)) (state_line (this w) s);
                 Recv (m_nSocket (this w))] |}.
Proof.
  intros Hrun Hu Hsend Hdec.
  rewrite (running_prefix s w Hrun). unfold bind at 1.
  rewrite GetActionFromQNetwork_exact by (apply stepped_usable; exact Hu).
  cbn [this os trace]. apply Z.ltb_lt in Hsend. rewrite Hsend. cbv zeta.
  rewrite Hdec. reflexivity.
Qed.

Lemma sys_rand_exact (w : World) :
  sys_rand w =
  Returns (next_rand (os w)) {| this := this w; os := pop_rand (os w); trace := trace w |}.
Proof.
  destruct w as [c [so co se re ra] t].
  unfold sys_rand, next_rand, pop_rand, bind, the_os, with_os, ret. cbn [this os trace rand_ret].
  destruct ra as [| r ra]; reflexivity.
Qed.

Lemma disconnected_tick (s : Sensors) (w : World) :
  Running (this w) ->
  m_bConnected (this w) = false ->
  ControlStep s w =
  Returns tt
    {| this := local_update (this w) s;
       os := pop_rand (os w);
       trace := trace w ++ [wheel_command (m_fVelocity (this w)) (Z.rem (next_rand (os w)) 4)] |}.
Proof.
  intros Hrun Hc.
  assert (E : exists c',
             ControlStep s w =
             Returns tt
               {| this := c'; os := pop_rand (os w);
                  trace := trace w ++ [wheel_command (m_fVelocity (this w))
                                                       (Z.rem (next_rand (os w)) 4)] |}).
  { rewrite (running_prefix s w Hrun). unfold bind at 1.
    unfold GetActionFromQNetwork at 1, bind at 1, self. cbn [this os trace].
    change (m_bConnected (set_nSteps (Int32.incr (m_nSteps (this w))) (this w)))
      with (m_bConnected (this w)).
    rewrite Hc. cbn [negb]. unfold bind at 1. rewrite sys_rand_exact. unfold ret at 1.
    cbn [this os trace].
    match goal with |- exists _, _ {| this := ?c1; os := ?o2; trace := ?t2 |} = _ =>
      destruct (running_suffix_disconnected s c1 o2 t2 (Z.rem (next_rand (os w)) 4) Hc) as (c' & E)
    end.
    exists c'. exact E. }
  destruct E as (c' & E). rewrite E.
  rewrite <- (ControlStep_returns_local s w _ Hrun E). reflexivity.
Qed.


(** ** The pending results a tick uses up *)

Lemma SendReward_silent (reward : F32.float) (done : bool) (w : World) :
  (m_nSocket (this w) <? 0) || negb (m_bConnected (this w)) = true ->
  SendReward reward done w = Returns tt w.
Proof.
  intros H. unfold SendReward, bind at 1, self.
  destruct (negb (m_bConnected (this w))) eqn:Hc; [reflexivity |].
  unfold bind at 1, SendMessage, bind at 1, self. rewrite Hc, H. unfold ret at 1.
  unfold bind at 1, ReceiveMessage, bind at 1, self. rewrite Hc, H. reflexivity.
Qed.

Lemma running_suffix_silent (s : Sensors) (c : QSwarmController) (o2 : OS)
      (t2 : list Event) (a : Z) :
  (m_nSocket c <? 0) || negb (m_bConnected c) = true ->
  exists c',
    (ExecuteAction a ;;
     '(reward, done) <- CalculateReward s ;;
     c <- self ;;
     assign (set_fEpisodeReward (F32.add (m_fEpisodeReward c) reward)) ;;
     SendReward reward done ;;
     c <- self ;;
     if done || (m_nSteps c >=? m_nMaxSteps c) then assign (set_bEpisodeDone true)
     else ret tt)
      {| this := c; os := o2; trace := t2 |}
    = Returns tt
        {| this := c'; os := o2; trace := t2 ++ [wheel_command (m_fVelocity c) a] |}.
Proof.
  intros Hs. unfold bind at 1. rewrite ExecuteAction_run.
  unfold bind at 1. rewrite CalculateReward_run. cbn [this os trace].
  destruct (evaluate c s) as [reward done].
  unfold bind at 1, self. unfold bind at 1, assign. cbn [this os trace].
  unfold bind at 1.
  match goal with |- context [SendReward reward done ?w4] =>
    rewrite (SendReward_silent reward done w4)
      by (cbn [this]; destruct (goal_reached c s); exact Hs)
  end.
  unfold bind at 1, self. cbn [this os trace].
  match goal with |- context [done || ?b] => destruct (done || b) end;
    unfold assign, ret; cbn [this os trace]; eexists; reflexivity.
Qed.

(** A [Running] tick whose action request returns uses up the pending
    results as [os_after_tick] says. *)
Lemma running_tick_os (s : Sensors) (w : World) (a : Z) :
  Running (this w) ->
  action_reply w = inr a ->
  exists w',
    ControlStep s w = Returns tt w' /\
    this w' = local_update (this w) s /\
    os w' = os_after_tick (this w) (os w).
Proof.
  intros Hrun Ha.
  assert (E : exists w', ControlStep s w = Returns tt w' /\
                         os w' = os_after_tick (this w) (os w)).
  { unfold os_after_tick, os_after_request, os_after_reward.
    destruct (m_bConnected (this w)) eqn:Hc; cbn [negb].
    - destruct (m_nSocket (this w) <? 0) eqn:Hs; cbn [orb].
      + rewrite (running_prefix s w Hrun). unfold bind at 1.
        unfold GetActionFromQNetwork at 1, bind at 1, self. cbn [this os trace].
        change (m_bConnected (set_nSteps (Int32.incr (m_nSteps (this w))) (this w)))
          with (m_bConnected (this w)).
        rewrite Hc. cbn [negb].
        unfold bind at 1, SendMessage, bind at 1, self. cbn [this os trace].
        change (m_nSocket (set_nSteps (Int32.incr (m_nSteps (this w))) (this w)))
          with (m_nSocket (this w)).
        rewrite Hs. cbn [orb]. unfold ret at 1. cbn [negb]. unfold ret at 1.
        match goal with |- exists _, _ {| this := ?c1; os := ?o2; trace := ?t2 |} = _ /\ _ =>
          destruct (running_suffix_silent s c1 o2 t2 0) as (c' & E);
            [cbn; rewrite Hs; reflexivity |]
        end.
        eexists. split; [exact E | reflexivity].
      + assert (Hu : usable (this w)) by (split; [apply Z.ltb_ge; exact Hs | exact Hc]).
        rewrite (running_prefix s w Hrun). unfold bind at 1.
        rewrite GetActionFromQNetwork_exact by (apply stepped_usable; exact Hu).
        cbn [this os trace].
        unfold action_reply, send_succeeds in Ha. rewrite Hc, Hs in Ha.
        cbn [negb orb andb] in Ha.
        destruct (0 <? hd (-1) (send_ret (os w))) eqn:Hsend; cbn [negb] in Ha.
        * cbv zeta. rewrite Ha.
          match goal with |- exists _, _ {| this := ?c1; os := ?o2; trace := ?t2 |} = _ /\ _ =>
            destruct (running_suffix_usable s c1 o2 t2 a (stepped_usable _ _ Hu)) as (c' & E)
          end.
          rewrite E. eexists. split; reflexivity.
        * match goal with |- exists _, _ {| this := ?c1; os := ?o2; trace := ?t2 |} = _ /\ _ =>
            destruct (running_suffix_usable s c1 o2 t2 0 (stepped_usable _ _ Hu)) as (c' & E)
          end.
          rewrite E. eexists. split; reflexivity.
    - rewrite orb_true_r. rewrite (disconnected_tick s w Hrun Hc).
      eexists. split; reflexivity. }
  destruct E as (w' & E & Hos). exists w'. split; [exact E |].
  split; [exact (ControlStep_returns_local s w w' Hrun E) | exact Hos].
Qed.

Lemma requests_return_ext (c c' : QSwarmController) (n : nat) :
  m_bConnected c' = m_bConnected c ->
  m_nSocket c' = m_nSocket c ->
  forall o, requests_return c' o n = requests_return c o n.
Proof.
  intros Hc Hs. induction n as [| k IH]; intros o; [reflexivity |].
  cbn [requests_return]. unfold action_reply, send_succeeds, os_after_tick,
    os_after_request, os_after_reward. cbn [this os].
  rewrite Hc, Hs, IH. reflexivity.
Qed.

Lemma requests_return_prefix (c : QSwarmController) (n m : nat) :
  forall o, requests_return c o (n + m) = true -> requests_return c o n = true.
Proof.
  induction n as [| k IH]; intros o H; [reflexivity |].
  cbn [requests_return Nat.add] in *.
  destruct (action_reply {| this := c; os := o; trace := [] |}); [discriminate |].
  apply IH. exact H.
Qed.

Lemma run_ticks_uneventful_requests (ticks : list Sensors) :
  forall w : World,
    Running (this w) ->
    Int32.in_range (m_nMaxSteps (this w)) ->
    0 <= m_nSteps (this w) ->
    requests_return (this w) (os w) (List.length ticks) = true ->
    uneventful (this w) (m_cPreviousPosition (this w)) ticks = true ->
    m_nSteps (this w) + Z.of_nat (List.length ticks) <= m_nMaxSteps (this w) ->
    exists w',
      run_ticks ticks w = Returns tt w' /\
      this w' = after_uneventful (this w) ticks.
Proof.
  induction ticks as [| s rest IH]; intros w Hrun Hmax Hpos Hreq Hun Hlen.
  - exists w. split; [reflexivity |].
    unfold after_uneventful. simpl. destruct Hrun as (_ & Hd).
    destruct (this w). simpl in *. subst. rewrite Z.add_0_r. reflexivity.
  - simpl in Hun. apply andb_true_iff in Hun. destruct Hun as (Hun & Hrest).
    apply andb_true_iff in Hun. destruct Hun as (Hg & Hc).
    apply negb_true_iff in Hg. apply negb_true_iff in Hc.
    cbn [List.length requests_return] in Hreq.
    assert (Ha : action_reply w = action_reply {| this := this w; os := os w; trace := [] |})
      by (destruct w; reflexivity).
    rewrite <- Ha in Hreq.
    destruct (action_reply w) as [e | a] eqn:Hrep; [discriminate |].
    destruct (running_tick_os s w a Hrun Hrep) as (w1 & E1 & T1 & O1).
    unfold local_update, evaluate in T1. rewrite Hg in T1.
    replace (collision (this w) s) with false in T1 by (rewrite <- Hc; reflexivity).
    cbn [fst snd orb] in T1.
    assert (Hincr : Int32.incr (m_nSteps (this w)) = m_nSteps (this w) + 1).
    { simpl List.length in Hlen. unfold Int32.incr. apply Int32Facts.wrap_id.
      unfold Int32.in_range, Int32.INT_MIN, Int32.INT_MAX in *. lia. }
    rewrite Hincr in T1.
    simpl run_ticks. unfold bind. rewrite E1.
    destruct rest as [| s2 rest'].
    + exists w1. split; [reflexivity |]. rewrite T1.
      unfold after_uneventful. simpl. reflexivity.
    + assert (Hlt : (m_nSteps (this w) + 1 >=? m_nMaxSteps (this w)) = false).
      { simpl List.length in Hlen. rewrite Z.geb_leb, Z.leb_gt. lia. }
      rewrite Hlt in T1.
      destruct (IH w1) as (w2 & E2 & T2).
      * rewrite T1. destruct Hrun as (He & Hd). split; [exact He | reflexivity].
      * rewrite T1. exact Hmax.
      * rewrite T1. simpl. lia.
      * rewrite O1, <- Hreq. apply requests_return_ext; rewrite T1; reflexivity.
      * rewrite T1. simpl m_cPreviousPosition.
        rewrite <- Hrest. apply uneventful_ext; reflexivity.
      * rewrite T1. simpl m_nSteps. simpl m_nMaxSteps.
        change (List.length (s :: s2 :: rest')) with (S (List.length (s2 :: rest'))) in Hlen.
        lia.
      * exists w2. split; [exact E2 |]. rewrite T2, T1.
        apply after_uneventful_cons. discriminate.
Qed.

(** Up to six penalties add up to the product, and to the float nearest
    to the exact value. *)
Lemma few_penalties (n : nat) :
  (1 <= n <= 6)%nat ->
  add_penalties n F32.zero = F32.mul F32.minus_tenth (F32.of_Z (Z.of_nat n)) /\
  add_penalties n F32.zero = F32.div (F32.of_Z (- Z.of_nat n)) (F32.of_Z 10).
Proof.
  intros H.
  destruct n as [| [| [| [| [| [| [| n]]]]]]]; try lia; split; vm_compute; reflexivity.
Qed.

(** Replies that all decode are a special case. *)
Lemma requests_return_decodable (c : QSwarmController) (n : nat) :
  forall o, forallb decodable (recv_ret o) = true -> requests_return c o n = true.
Proof.
  induction n as [| k IH]; intros o H; [reflexivity |].
  cbn [requests_return].
  destruct (decodable_reply {| this := c; os := o; trace := [] |} H) as (a & Ha).
  rewrite Ha. apply IH.
  assert (Htl : forall l, forallb decodable l = true -> forallb decodable (tl l) = true).
  { intros [| r l] Hl; [reflexivity |]. cbn in Hl. apply andb_true_iff in Hl. apply Hl. }
  unfold os_after_tick, os_after_reward, os_after_request.
  destruct (negb (m_bConnected c)), (m_nSocket c <? 0), (0 <? hd (-1) (send_ret o));
    cbn [orb recv_ret pop_rand pop_send pop_recv]; auto.
Qed.

(** C7, as the code has it.  From a fresh episode with a step limit of
    at least 1, [m_nMaxSteps] ticks that neither reach the goal nor
    collide, and on which no reply makes the action request throw, all
    return; the flag [m_bEpisodeDone] is raised by the last of them and
    by none before, and the accumulated reward is what adding [-0.1f] to
    [0.0f] [m_nMaxSteps] times gives in single precision, which is
    [-0.1f * m_nMaxSteps], and the float nearest to a tenth of
    [-m_nMaxSteps], when the limit is at most 6.  On every
    [Running] tick that returns, the flag ends up set exactly when the
    evaluation said done or the incremented step count has reached the
    limit. *)
Theorem C7_step_limit (ticks : list Sensors) (w : World) :
  ints_in_range (this w) ->
  m_nEpisode (this w) < m_nMaxEpisodes (this w) ->
  fresh_episode (this w) ->
  requests_return (this w) (os w) (List.length ticks) = true ->
  uneventful (this w) (m_cPreviousPosition (this w)) ticks = true ->
  1 <= m_nMaxSteps (this w) ->
  Z.of_nat (List.length ticks) = m_nMaxSteps (this w) ->
  (exists w',
      run_ticks ticks w = Returns tt w' /\
      m_bEpisodeDone (this w') = true /\
      m_nSteps (this w') = m_nMaxSteps (this w) /\
      m_fEpisodeReward (this w') = add_penalties (List.length ticks) F32.zero /\
      (m_nMaxSteps (this w) <= 6 ->
       m_fEpisodeReward (this w')
         = F32.mul F32.minus_tenth (F32.of_Z (m_nMaxSteps (this w))) /\
       m_fEpisodeReward (this w')
         = F32.div (F32.of_Z (- m_nMaxSteps (this w))) (F32.of_Z 10))) /\
  (forall n, (n < List.length ticks)%nat ->
     exists w',
       run_ticks (firstn n ticks) w = Returns tt w' /\
       m_bEpisodeDone (this w') = false) /\
  (forall s v v',
      Running (this v) ->
      ControlStep s v = Returns tt v' ->
      m_bEpisodeDone (this v') =
        (snd (evaluate (this v) s) || (m_nSteps (this v') >=? m_nMaxSteps (this v')))).
Proof.
  intros (_ & _ & Hmax & _) Hep (Hs & Hr & Hd) Hreq Hun Hone Hlen.
  assert (Hrun : Running (this w)) by (split; assumption).
  split; [| split].
  - destruct (run_ticks_uneventful_requests ticks w Hrun Hmax) as (w' & E & T);
      [lia | exact Hreq | exact Hun | lia |].
    exists w'. split; [exact E |]. rewrite T. unfold after_uneventful. simpl.
    rewrite Hs, Hr. split; [| split; [lia | split; [reflexivity |]]].
    + destruct (List.length ticks) eqn:Hl; [simpl in Hlen; lia |].
      simpl. rewrite Z.geb_leb. apply Z.leb_le. lia.
    + intros Hsix. rewrite <- Hlen. apply few_penalties. lia.
  - intros n Hn.
    assert (Hfl : List.length (firstn n ticks) = n) by (apply firstn_length_le; lia).
    destruct (run_ticks_uneventful_requests (firstn n ticks) w Hrun Hmax) as (w' & E & T);
      [lia | | apply uneventful_firstn; exact Hun | rewrite Hfl; lia |].
    { rewrite Hfl. apply (requests_return_prefix (this w) n (List.length ticks - n)).
      replace (n + (List.length ticks - n))%nat with (List.length ticks) by lia.
      exact Hreq. }
    exists w'. split; [exact E |]. rewrite T. unfold after_uneventful. simpl.
    rewrite Hfl, Hs. apply andb_false_iff. right.
    rewrite Z.geb_leb. apply Z.leb_gt. lia.
  - intros s v v' Hv E.
    rewrite (ControlStep_returns_local s v v' Hv E). reflexivity.
Qed.


(** ** A disconnected robot *)

Lemma ControlStep_reset_exact (s : Sensors) (w : World) :
  EpisodeDone (this w) ->
  ControlStep s w =
  Returns tt
    {| this :=
         set_cPreviousPosition (currentPos s)
           (set_fEpisodeReward F32.zero
              (set_bEpisodeDone false
                 (set_nSteps 0 (set_nEpisode (Int32.incr (m_nEpisode (this w))) (this w)))));
       os := os w; trace := trace w ++ [stop_command] |}.
Proof.
  intros (Hlt & Hdone). unfold ControlStep, bind at 1, self.
  replace (m_nEpisode (this w) >=? m_nMaxEpisodes (this w)) with false
    by (symmetry; rewrite Z.geb_leb, Z.leb_gt; lia).
  rewrite Hdone. reflexivity.
Qed.

Lemma state_cases (c : QSwarmController) : Finished c \/ EpisodeDone c \/ Running c.
Proof.
  unfold Finished, EpisodeDone, Running.
  destruct (Z_lt_ge_dec (m_nEpisode c) (m_nMaxEpisodes c)) as [Hlt | Hge]; [| left; exact Hge].
  destruct (m_bEpisodeDone c); [right; left | right; right]; split; auto.
Qed.

Lemma disconnected_step (s : Sensors) (w : World) :
  m_bConnected (this w) = false ->
  exists w' e,
    ControlStep s w = Returns tt w' /\
    m_bConnected (this w') = false /\
    trace w' = trace w ++ [e] /\ is_wheel e = true /\
    send_ret (os w') = send_ret (os w) /\ recv_ret (os w') = recv_ret (os w).
Proof.
  intros Hc. destruct (state_cases (this w)) as [Hf | [Hd | Hr]].
  - eexists. eexists. rewrite (ControlStep_finished s w Hf).
    split; [reflexivity |]. repeat split; assumption.
  - eexists. eexists. rewrite (ControlStep_reset_exact s w Hd).
    split; [reflexivity |]. repeat split; assumption.
  - eexists. eexists. rewrite (disconnected_tick s w Hr Hc).
    split; [reflexivity |]. repeat split; assumption.
Qed.

Lemma disconnected_ticks (ticks : list Sensors) (w : World) :
  m_bConnected (this w) = false ->
  exists w' evs,
    run_ticks ticks w = Returns tt w' /\
    m_bConnected (this w') = false /\
    trace w' = trace w ++ evs /\
    forallb is_wheel evs = true /\ List.length evs = List.length ticks /\
    send_ret (os w') = send_ret (os w) /\ recv_ret (os w') = recv_ret (os w).
Proof.
  revert w. induction ticks as [| s rest IH]; intros w Hc.
  - exists w, []. rewrite app_nil_r. repeat split; assumption.
  - destruct (disconnected_step s w Hc) as (w1 & e & E1 & C1 & T1 & W1 & S1 & R1).
    destruct (IH w1 C1) as (w' & evs & E & C & T & W & L & S & R).
    exists w', (e :: evs). cbn [run_ticks]. unfold bind. rewrite E1.
    split; [exact E |]. split; [exact C |].
    split; [rewrite T, T1, <- app_assoc; reflexivity |].
    split; [cbn [forallb]; rewrite W1; exact W |].
    split; [cbn [List.length]; rewrite L; reflexivity |].
    split; congruence.
Qed.

(** X4. A robot that is not connected never touches the network: any
    number of ticks returns, leaves it disconnected, consumes no send or
    receive result, and issues exactly one command per tick, each of them
    a wheel command. *)
Theorem disconnected_run (ticks : list Sensors) (w : World) :
  m_bConnected (this w) = false ->
  exists w' evs,
    run_ticks ticks w = Returns tt w' /\
    m_bConnected (this w') = false /\
    trace w' = trace w ++ evs /\
    forallb is_wheel evs = true /\ List.length evs = List.length ticks /\
    send_ret (os w') = send_ret (os w) /\ recv_ret (os w') = recv_ret (os w).
Proof. exact (disconnected_ticks ticks w). Qed.

(** ** What a tick never changes *)

(** X5. However a tick ends, by returning or by throwing, it leaves the
    name, the id, the goal, the limits, the socket, the connected flag,
    the velocity and the thresholds as they were, and all it issues are
    wheel commands, sends and receives: it never opens, connects or
    closes a socket and never sleeps. *)
Theorem ControlStep_keeps_setup (s : Sensors) (w : World) :
  setup (this (world_of (ControlStep s w))) = setup (this w) /\
  exists evs,
    trace (world_of (ControlStep s w)) = trace w ++ evs /\
    forallb (fun e => is_wheel e || is_traffic e) evs = true.
Proof.
  destruct (state_cases (this w)) as [Hf | [Hd | Hr]].
  - rewrite (ControlStep_finished s w Hf). split; [reflexivity |].
    exists [stop_command]. split; reflexivity.
  - rewrite (ControlStep_reset_exact s w Hd). split; [reflexivity |].
    exists [stop_command]. split; reflexivity.
  - destruct (ControlStep_running s w Hr) as (w' & H).
    destruct (action_reply w) as [e | a].
    + destruct H as (E & T & evs & Tr & F). rewrite E. cbn [world_of].
      split; [rewrite T; reflexivity |]. exists evs. split; [exact Tr |].
      clear - F. induction evs as [| x evs IH]; [reflexivity |].
      cbn [forallb] in *. apply andb_true_iff in F. destruct F as (F1 & F2).
      rewrite F1, orb_true_r. apply IH. exact F2.
    + destruct H as (E & T & (before & after & Tr & F1 & F2) & _). rewrite E. cbn [world_of].
      split; [rewrite T; reflexivity |].
      exists (before ++ [wheel_command (m_fVelocity (this w)) a] ++ after).
      split; [exact Tr |].
      assert (G : forall l, forallb is_traffic l = true ->
                            forallb (fun e => is_wheel e || is_traffic e) l = true).
      { clear. induction l as [| x l IH]; intros F; [reflexivity |].
        cbn [forallb] in *. apply andb_true_iff in F. destruct F as (F1 & F2).
        rewrite F1, orb_true_r. apply IH. exact F2. }
      rewrite !forallb_app, (G _ F1), (G _ F2). reflexivity.
Qed.


(** ** The counters *)

Lemma counters_step (s : Sensors) (w w' : World) :
  counters_ok (this w) ->
  ControlStep s w = Returns tt w' ->
  counters_ok (this w') /\
  m_nMaxEpisodes (this w') = m_nMaxEpisodes (this w) /\
  m_nEpisode (this w) <= m_nEpisode (this w')
    <= Z.max (m_nEpisode (this w)) (m_nMaxEpisodes (this w)).
Proof.
  intros ((He & Hs & Hms & Hme) & Hb & Hd) E.
  unfold Int32.in_range, Int32.INT_MIN, Int32.INT_MAX in *.
  destruct (state_cases (this w)) as [Hf | [Hdone | Hr]].
  - rewrite (ControlStep_finished s w Hf) in E. injection E as <-. cbn [this].
    split; [| lia].
    unfold counters_ok, ints_in_range, Int32.in_range, Int32.INT_MIN, Int32.INT_MAX. tauto.
  - pose proof Hdone as (Hlt & _).
    rewrite (ControlStep_reset_exact s w Hdone) in E. injection E as <-. cbn [this].
    assert (Hi : Int32.incr (m_nEpisode (this w)) = m_nEpisode (this w) + 1).
    { apply Int32Facts.wrap_id. unfold Int32.in_range, Int32.INT_MIN, Int32.INT_MAX. lia. }
    unfold counters_ok, ints_in_range, Int32.in_range, Int32.INT_MIN, Int32.INT_MAX.
    cbn. rewrite Hi. repeat split; try lia; try (intros _; right; reflexivity).
  - pose proof Hr as (Hlt & Hnd).
    rewrite (ControlStep_returns_local s w w' Hr E).
    assert (Hi : Int32.incr (m_nSteps (this w)) = m_nSteps (this w) + 1).
    { apply Int32Facts.wrap_id. unfold Int32.in_range, Int32.INT_MIN, Int32.INT_MAX.
      destruct (Hd Hnd); lia. }
    unfold counters_ok, ints_in_range, Int32.in_range, Int32.INT_MIN, Int32.INT_MAX,
      local_update.
    cbn. rewrite Hi. destruct (Hd Hnd) as [Hlim | Hz].
    + repeat split; try lia;
        try (intros Hfalse; left;
             apply orb_false_iff in Hfalse; destruct Hfalse as (_ & Hfalse);
             rewrite Z.geb_leb in Hfalse; apply Z.leb_gt in Hfalse; lia).
    + repeat split; try lia;
        try (intros Hfalse; left;
             apply orb_false_iff in Hfalse; destruct Hfalse as (_ & Hfalse);
             rewrite Z.geb_leb in Hfalse; apply Z.leb_gt in Hfalse; lia).
Qed.

(** X6. The counters never wrap and never leave their ranges: along any
    run of ticks that returns, starting with [0 <= m_nSteps <= max(1,
    m_nMaxSteps)] (a running step count below its limit, or 0), the same
    holds at the end, every [int] field still holds a 32-bit value, and
    the episode index has not decreased nor passed [m_nMaxEpisodes]. *)
Theorem counters_stay_in_range (ticks : list Sensors) (w w' : World) :
  counters_ok (this w) ->
  run_ticks ticks w = Returns tt w' ->
  counters_ok (this w') /\
  m_nEpisode (this w) <= m_nEpisode (this w')
    <= Z.max (m_nEpisode (this w)) (m_nMaxEpisodes (this w)).
Proof.
  revert w. induction ticks as [| s rest IH]; intros w Hok E.
  - cbn in E. injection E as <-. split; [exact Hok | lia].
  - cbn [run_ticks] in E. unfold bind in E.
    destruct (ControlStep s w) as [[] w1 | e w1] eqn:E1; [| discriminate].
    destruct (counters_step s w w1 Hok E1) as (Hok1 & Hm & Hmono).
    destruct (IH w1 Hok1 E) as (Hok' & Hmono').
    split; [exact Hok' |]. rewrite Hm in Hmono'. lia.
Qed.

(** ** From one episode to the next *)

(** X7. The tick after one that ended an episode starts the next one:
    when a [Running] tick returns with [m_bEpisodeDone] set (goal,
    collision or step limit), the following tick only stops the wheels
    and leaves episode index + 1, step count 0, reward 0, the flag
    cleared and the position of that following tick as previous
    position, whatever the ending tick had accumulated. *)
Theorem episode_end_then_reset (s s2 : Sensors) (w w1 : World) :
  ints_in_range (this w) ->
  Running (this w) ->
  ControlStep s w = Returns tt w1 ->
  m_bEpisodeDone (this w1) = true ->
  ControlStep s2 w1 =
  Returns tt
    {| this :=
         {| m_strRobotId := m_strRobotId (this w);
            m_nRobotIdNum := m_nRobotIdNum (this w);
            m_cGoalPosition := m_cGoalPosition (this w);
            m_nEpisode := m_nEpisode (this w) + 1;
            m_nSteps := 0;
            m_nMaxSteps := m_nMaxSteps (this w);
            m_nMaxEpisodes := m_nMaxEpisodes (this w);
            m_nSocket := m_nSocket (this w);
            m_bConnected := m_bConnected (this w);
            m_cPreviousPosition := currentPos s2;
            m_fVelocity := m_fVelocity (this w);
            m_fCollisionThreshold := m_fCollisionThreshold (this w);
            m_fGoalThreshold := m_fGoalThreshold (this w);
            m_bEpisodeDone := false;
            m_fEpisodeReward := F32.zero |};
       os := os w1;
       trace := trace w1 ++ [stop_command] |}.
Proof.
  intros (He & Hs & Hms & Hme) Hr E Hdone.
  pose proof (ControlStep_returns_local s w w1 Hr E) as T.
  destruct Hr as (Hlt & Hnd).
  rewrite ControlStep_episode_done.
  - rewrite T. reflexivity.
  - rewrite T. split; [exact He |]. split; [apply Int32Facts.wrap_in_range |].
    split; [exact Hms | exact Hme].
  - split; [rewrite T; exact Hlt | exact Hdone].
Qed.


(** ** Connecting *)

Lemma sys_connect_exact (fd : Z) (w : World) :
  sys_connect fd w =
  Returns (hd (-1) (connect_ret (os w)))
          {| this := this w; os := pop_connect (os w); trace := trace w ++ [Connect fd] |}.
Proof.
  destruct w as [c [so co se re ra] t].
  unfold sys_connect, pop_connect, bind, the_os, emit, with_os, ret.
  cbn [this os trace connect_ret].
  destruct co as [| r co]; reflexivity.
Qed.

Lemma sys_socket_exact (w : World) :
  sys_socket w =
  Returns (next_socket (os w))
          {| this := this w; os := pop_socket (os w); trace := trace w ++ [Socket] |}.
Proof.
  destruct w as [c [so co se re ra] t].
  unfold sys_socket, pop_socket, next_socket, bind, the_os, emit, with_os, ret.
  cbn [this os trace socket_ret].
  destruct so as [| r so]; reflexivity.
Qed.

Lemma connects_within_step (k : nat) (results : list Z) :
  connects_within (S k) results
  = (hd (-1) results =? 0) || connects_within k (tl results).
Proof.
  unfold connects_within. destruct results as [| r rest]; [| reflexivity].
  cbn. destruct k; reflexivity.
Qed.

Lemma skipn_tl {A} (n : nat) (l : list A) : skipn n (tl l) = skipn (S n) l.
Proof. destruct l; [destruct n; reflexivity | reflexivity]. Qed.

Lemma drop_connects_none (o : OS) : drop_connects 0 o = o.
Proof. destruct o; reflexivity. Qed.

Lemma drop_connects_pop (n : nat) (o : OS) :
  drop_connects n (pop_connect o) = drop_connects (S n) o.
Proof.
  unfold drop_connects, pop_connect. cbn [socket_ret connect_ret send_ret recv_ret rand_ret].
  rewrite skipn_tl. reflexivity.
Qed.

Lemma nth_tl {A} (i : nat) (l : list A) (d : A) : nth i (tl l) d = nth (S i) l d.
Proof. destruct l; [destruct i; reflexivity | reflexivity]. Qed.

Lemma hd_nth {A} (l : list A) (d : A) : hd d l = nth 0 l d.
Proof. destruct l; reflexivity. Qed.

(** The loop makes its attempts one by one, [k] failed ones, and stops
    at the first that succeeds. *)
Lemma connect_loop_exact (fd : Z) (retries : nat) :
  forall w, exists (k : nat) (w' : World),
    connect_loop fd retries w = Returns (connects_within retries (connect_ret (os w))) w' /\
    this w' = (if connects_within retries (connect_ret (os w))
               then set_bConnected true (this w) else this w) /\
    os w' = drop_connects
              (k + (if connects_within retries (connect_ret (os w)) then 1 else 0)) (os w) /\
    trace w' = trace w ++ failed_attempts fd k
                 ++ (if connects_within retries (connect_ret (os w)) then [Connect fd] else []) /\
    (forall i, (i < k)%nat -> nth i (connect_ret (os w)) (-1) <> 0) /\
    (connects_within retries (connect_ret (os w)) = true ->
     (k < retries)%nat /\ nth k (connect_ret (os w)) (-1) = 0) /\
    (connects_within retries (connect_ret (os w)) = false -> k = retries).
Proof.
  induction retries as [| n IH]; intros w.
  - exists 0%nat, w. unfold connects_within. cbn [firstn existsb Nat.add].
    split; [reflexivity |]. split; [reflexivity |].
    split; [symmetry; apply drop_connects_none |].
    split; [cbn; rewrite app_nil_r; reflexivity |].
    split; [intros i Hi; lia |]. split; [discriminate | reflexivity].
  - cbn [connect_loop]. unfold bind at 1. rewrite sys_connect_exact.
    rewrite connects_within_step.
    destruct (hd (-1) (connect_ret (os w)) =? 0) eqn:Hr; cbn [orb].
    + exists 0%nat. eexists. unfold bind, assign, ret. cbn [this os trace Nat.add].
      split; [reflexivity |]. split; [reflexivity |].
      split; [rewrite <- drop_connects_pop; symmetry; apply drop_connects_none |].
      split; [reflexivity |].
      split; [intros i Hi; lia |].
      split; [| discriminate].
      intros _. split; [lia |]. rewrite <- hd_nth. apply Z.eqb_eq. exact Hr.
    + unfold bind at 1, emit. cbn [this os trace].
      match goal with |- context [connect_loop fd n ?w2] =>
        destruct (IH w2) as (k & w' & E & T & O & Tr & Hf & Hs & Hall)
      end.
      cbn [this os trace pop_connect connect_ret] in *.
      exists (S k), w'.
      split; [exact E |]. split; [exact T |].
      split; [rewrite O; apply (drop_connects_pop _ (os w)) |].
      split; [rewrite Tr, <- !app_assoc; reflexivity |].
      split; [| split].
      * intros [| i] Hi.
        -- rewrite <- hd_nth. apply Z.eqb_neq. exact Hr.
        -- rewrite <- nth_tl. apply Hf. lia.
      * intros Hb. destruct (Hs Hb) as (Hk & Hn). split; [lia |].
        rewrite <- nth_tl. exact Hn.
      * intros Hb. rewrite (Hall Hb). reflexivity.
Qed.

Lemma connect_exact (w : World) :
  exists (k : nat) (w' : World),
    ConnectToQNetwork w = Returns (will_connect (os w)) w' /\
    this w' = connected_object (os w) (this w) /\
    os w' = drop_connects (k + (if will_connect (os w) then 1 else 0)) (pop_socket (os w)) /\
    trace w' = trace w ++ Socket :: failed_attempts (next_socket (os w)) k
                 ++ (if will_connect (os w) then [Connect (next_socket (os w))] else []) /\
    (forall i, (i < k)%nat -> nth i (connect_ret (os w)) (-1) <> 0) /\
    (will_connect (os w) = true ->
     0 <= next_socket (os w) /\ (k < 10)%nat /\ nth k (connect_ret (os w)) (-1) = 0) /\
    (will_connect (os w) = false -> k = if next_socket (os w) <? 0 then 0%nat else 10%nat).
Proof.
  unfold ConnectToQNetwork, bind at 1. rewrite sys_socket_exact.
  unfold bind at 1, assign. cbn [this os trace].
  unfold will_connect, connected_object, will_connect.
  destruct (next_socket (os w) <? 0) eqn:Hfd.
  - apply Z.ltb_lt in Hfd.
    replace (0 <=? next_socket (os w)) with false by (symmetry; apply Z.leb_gt; exact Hfd).
    cbn [andb]. exists 0%nat. eexists. unfold ret.
    split; [reflexivity |]. split; [reflexivity |].
    split; [reflexivity |]. split; [reflexivity |].
    split; [intros i Hi; lia |]. split; [discriminate | reflexivity].
  - apply Z.ltb_ge in Hfd.
    replace (0 <=? next_socket (os w)) with true by (symmetry; apply Z.leb_le; exact Hfd).
    cbn [andb].
    match goal with |- context [connect_loop ?fd 10 ?w2] =>
      destruct (connect_loop_exact fd 10 w2) as (k & w' & E & T & O & Tr & Hf & Hs & Hall)
    end.
    cbn [this os trace pop_socket connect_ret] in *.
    exists k, w'. split; [exact E |]. split; [rewrite T; reflexivity |].
    split; [exact O |].
    split; [rewrite Tr, <- app_assoc; reflexivity |].
    split; [exact Hf |]. split; [| exact Hall].
    intros Hb. destruct (Hs Hb) as (Hk & Hn). split; [exact Hfd |]. split; assumption.
Qed.

(** X8. [ConnectToQNetwork] opens one socket, stores the descriptor and,
    if it is valid, tries to connect on it, pausing after every failed
    attempt and stopping at the first that succeeds or after the tenth.
    With [k] the number of failed attempts made: the commands issued are
    exactly [socket], [k] times [connect] and [sleep], and one more
    [connect] on success; exactly that many results of [connect] are
    used up; the first [k] results were failures; on success [k < 10],
    the result after them is 0 and the object is connected; on failure
    [k] is 10, or 0 if [socket] failed, and the connected flag is left
    as it was; the return value tells which. *)
Theorem ConnectToQNetwork_retries (w : World) :
  exists (k : nat) (w' : World),
    ConnectToQNetwork w = Returns (will_connect (os w)) w' /\
    this w' = connected_object (os w) (this w) /\
    os w' = drop_connects (k + (if will_connect (os w) then 1 else 0)) (pop_socket (os w)) /\
    trace w' = trace w ++ Socket :: failed_attempts (next_socket (os w)) k
                 ++ (if will_connect (os w) then [Connect (next_socket (os w))] else []) /\
    (forall i, (i < k)%nat -> nth i (connect_ret (os w)) (-1) <> 0) /\
    (will_connect (os w) = true ->
     0 <= next_socket (os w) /\ (k < 10)%nat /\ nth k (connect_ret (os w)) (-1) = 0) /\
    (will_connect (os w) = false -> k = if next_socket (os w) <? 0 then 0%nat else 10%nat).
Proof. exact (connect_exact w). Qed.


(** ** Closing *)

Lemma close_twice (w : World) :
  exists w',
    Destroy w = Returns tt w' /\
    Destroy w' = Returns tt w' /\
    m_nSocket (this w') < 0 /\
    w' = (if 0 <=? m_nSocket (this w)
          then {| this := set_bConnected false (set_nSocket (-1) (this w));
                  os := os w; trace := trace w ++ [Close (m_nSocket (this w))] |}
          else w).
Proof.
  unfold Destroy, CloseConnection, bind at 1, self.
  destruct (0 <=? m_nSocket (this w)) eqn:Hs.
  - eexists. split; [reflexivity |]. cbn. repeat split; lia.
  - exists w. split; [reflexivity |].
    unfold bind, self. rewrite Hs. repeat split; apply Z.leb_gt; exact Hs.
Qed.

(** X9. [Destroy] is idempotent: it always returns, closes the
    descriptor exactly when [m_nSocket >= 0] (then storing -1 and
    clearing [m_bConnected]), and a second call changes nothing and
    issues nothing. *)
Theorem Destroy_idempotent (w : World) :
  exists w',
    Destroy w = Returns tt w' /\
    Destroy w' = Returns tt w' /\
    m_nSocket (this w') < 0 /\
    w' = (if 0 <=? m_nSocket (this w)
          then {| this := set_bConnected false (set_nSocket (-1) (this w));
                  os := os w; trace := trace w ++ [Close (m_nSocket (this w))] |}
          else w).
Proof. exact (close_twice w). Qed.

(** X10. After [Destroy] the robot is silent on the network for good:
    provided a connected robot held a valid descriptor, every later run
    of ticks returns and issues wheel commands only, one per tick. *)
Theorem silent_after_Destroy (ticks : list Sensors) (w : World) :
  (m_bConnected (this w) = true -> 0 <= m_nSocket (this w)) ->
  exists w1 w' evs,
    Destroy w = Returns tt w1 /\
    run_ticks ticks w1 = Returns tt w' /\
    trace w' = trace w1 ++ evs /\
    forallb is_wheel evs = true /\ List.length evs = List.length ticks.
Proof.
  intros Hinv. destruct (close_twice w) as (w1 & E1 & _ & _ & Hw1).
  assert (Hc : m_bConnected (this w1) = false).
  { rewrite Hw1. destruct (0 <=? m_nSocket (this w)) eqn:Hs; [reflexivity |].
    destruct (m_bConnected (this w)); [| reflexivity].
    apply Z.leb_gt in Hs. specialize (Hinv eq_refl). lia. }
  destruct (disconnected_ticks ticks w1 Hc) as (w' & evs & E & _ & T & W & L & _).
  exists w1, w', evs. repeat split; assumption.
Qed.


(** ** Initialisation *)


Lemma Init_exact (name : string) (t_node : Configuration) (s : Sensors) (w : World) :
  exists w',
    Init name t_node s w
      = (if all_readable t_node then Returns tt w' else Throws Str.CARGoSException w') /\
    (all_readable t_node = true ->
     this w' = connected_object (os w) (configured name t_node s (this w))) /\
    (all_readable t_node = false -> os w' = os w /\ trace w' = trace w) /\
    m_strRobotId (this w') = name /\
    m_nRobotIdNum (this w') = robot_id name (m_nRobotIdNum (this w)).
Proof.
  destruct (Init_reads name t_node s w) as (c' & Hname & Hid & Hc & E).
  rewrite E. destruct (all_readable t_node).
  - unfold bind at 1.
    match goal with |- context [ConnectToQNetwork ?w2] =>
      destruct (connect_exact w2) as (k & w' & Ec & T & _); rewrite Ec
    end.
    cbn [this os trace] in T.
    exists w'. split; [reflexivity |].
    split; [intros _; rewrite T, (Hc eq_refl); reflexivity |].
    split; [discriminate |].
    rewrite T. unfold connected_object.
    destruct (will_connect (os w)); split; assumption.
  - eexists. split; [reflexivity |]. split; [discriminate |].
    split; [intros _; split; reflexivity |]. split; assumption.
Qed.



(** ** Framing *)

Lemma take_all (s : string) :
  forall n, Z.of_nat (String.length s) <= n -> Str.take n s = s.
Proof.
  induction s as [| c s IH]; intros n H; [reflexivity |].
  cbn [Str.take]. cbn [String.length] in H.
  replace (0 <? n) with true by (symmetry; apply Z.ltb_lt; lia).
  rewrite IH by lia. reflexivity.
Qed.

Lemma c_str_framed (m : string) : nul_free m = true -> Str.c_str (framed m) = framed m.
Proof.
  induction m as [| c m IH]; intros H; [reflexivity |].
  cbn [nul_free] in H. apply andb_true_iff in H. destruct H as (Hc & Hm).
  apply negb_true_iff in Hc. unfold framed in *. cbn [String.append Str.c_str].
  rewrite Hc, (IH Hm). reflexivity.
Qed.

Lemma strip_newline_framed (m : string) : Str.strip_newline (framed m) = m.
Proof.
  induction m as [| c m IH]; [reflexivity |].
  unfold framed in *. cbn [String.append].
  destruct m as [| c' m']; [reflexivity |].
  cbn [String.append] in *.
  change (String c (Str.strip_newline (String c' (m' ++ String Str.newline "")%string))
          = String c (String c' m')).
  rewrite IH. reflexivity.
Qed.

Lemma length_framed (m : string) : String.length (framed m) = S (String.length m).
Proof.
  induction m as [| c m IH]; [reflexivity |].
  unfold framed in *. cbn [String.append String.length]. rewrite IH. reflexivity.
Qed.

Lemma received_framed (message : string) :
  nul_free message = true ->
  Z.of_nat (String.length message) < 4095 ->
  received_message (framed message) = message.
Proof.
  intros Hn Hl. unfold received_message.
  rewrite take_all by (rewrite length_framed; lia).
  rewrite length_framed.
  replace (0 <? Z.of_nat (S (String.length message))) with true
    by (symmetry; apply Z.ltb_lt; lia).
  rewrite (c_str_framed _ Hn). apply strip_newline_framed.
Qed.

(** X12. The framing round trip: [SendMessage] puts the message followed
    by one newline on the wire, and [ReceiveMessage], handed those bytes
    by one [recv], returns the message as it was, provided it holds no
    NUL and fits the 4095-byte read with its newline.  (Only the final
    newline is removed: lines that arrive together come back as one
    message.) *)
Theorem receive_undoes_send (message : string) (pending : list string) (w : World) :
  usable (this w) ->
  nul_free message = true ->
  Z.of_nat (String.length message) < 4095 ->
  recv_ret (os w) = framed message :: pending ->
  SendMessage message w =
    Returns (0 <? hd (-1) (send_ret (os w)))
            {| this := this w; os := pop_send (os w);
               trace := trace w ++ [Send (m_nSocket (this w)) (framed message)] |} /\
  ReceiveMessage w =
    Returns message
            {| this := this w; os := pop_recv (os w);
               trace := trace w ++ [Recv (m_nSocket (this w))] |}.
Proof.
  intros Hu Hn Hl Hr. split; [apply SendMessage_exact; exact Hu |].
  rewrite (ReceiveMessage_exact w Hu), Hr. cbn [hd].
  rewrite (received_framed message Hn Hl). reflexivity.
Qed.

Lemma length_take (s : string) :
  forall n, 0 <= n -> Z.of_nat (String.length (Str.take n s)) <= n.
Proof.
  induction s as [| c s IH]; intros n H; [cbn; lia |].
  cbn [Str.take]. destruct (0 <? n) eqn:Hn; [| cbn; lia].
  apply Z.ltb_lt in Hn. cbn [String.length]. specialize (IH (n - 1)). lia.
Qed.

Lemma c_str_shorter (s : string) :
  (String.length (Str.c_str s) <= String.length s)%nat /\ nul_free (Str.c_str s) = true.
Proof.
  induction s as [| c s (IHl & IHn)]; [split; reflexivity |].
  cbn [Str.c_str]. destruct (Ascii.eqb c zero) eqn:Hc.
  - split; [cbn; lia | reflexivity].
  - cbn [String.length nul_free]. rewrite Hc, IHn. split; [lia | reflexivity].
Qed.

Lemma strip_newline_shorter (s : string) :
  (String.length (Str.strip_newline s) <= String.length s)%nat /\
  (nul_free s = true -> nul_free (Str.strip_newline s) = true).
Proof.
  induction s as [| c s (IHl & IHn)]; [split; [reflexivity | auto] |].
  destruct s as [| c' s'].
  - cbn [Str.strip_newline]. destruct (Ascii.eqb c Str.newline); split; cbn; auto; lia.
  - change (Str.strip_newline (String c (String c' s')))
      with (String c (Str.strip_newline (String c' s'))).
    split.
    + cbn [String.length] in *. lia.
    + intros H. cbn [nul_free] in H. apply andb_true_iff in H. destruct H as (Hc & Hs).
      change (nul_free (String c (Str.strip_newline (String c' s'))))
        with (negb (Ascii.eqb c zero) && nul_free (Str.strip_newline (String c' s'))).
      rewrite Hc. apply IHn. exact Hs.
Qed.

Lemma received_message_bounds (bytes : string) :
  Z.of_nat (String.length (received_message bytes)) <= 4095 /\
  nul_free (received_message bytes) = true.
Proof.
  unfold received_message.
  destruct (0 <? Z.of_nat (String.length (Str.take 4095 bytes))); [| split; [cbn; lia | reflexivity]].
  pose proof (length_take bytes 4095 ltac:(lia)) as Ht.
  destruct (c_str_shorter (Str.take 4095 bytes)) as (Hc & Hn).
  destruct (strip_newline_shorter (Str.c_str (Str.take 4095 bytes))) as (Hs & Hsn).
  split; [lia | apply Hsn; exact Hn].
Qed.


(** ** Decoding what [operator<<] prints for an [int] *)

Lemma of_uint_acc_value (d : Decimal.uint) :
  forall acc, Z.pos (Pos.of_uint_acc d acc) = uint_value (Z.pos acc) d.
Proof.
  induction d as [| d IH | d IH | d IH | d IH | d IH | d IH | d IH | d IH | d IH | d IH];
    intros acc; cbn [Pos.of_uint_acc uint_value]; [reflexivity | ..];
    rewrite IH; f_equal; lia.
Qed.

Lemma of_uint_value (d : Decimal.uint) : Z.of_N (Pos.of_uint d) = uint_value 0 d.
Proof.
  induction d as [| d IH | d IH | d IH | d IH | d IH | d IH | d IH | d IH | d IH | d IH];
    cbn [Pos.of_uint uint_value]; [reflexivity | exact IH | ..];
    cbn [Z.of_N]; rewrite of_uint_acc_value; reflexivity.
Qed.

Lemma to_uint_value (p : positive) : uint_value 0 (Pos.to_uint p) = Z.pos p.
Proof. rewrite <- of_uint_value, DecimalPos.Unsigned.of_to. reflexivity. Qed.

Lemma digits_value_stop (acc : Z) (rest : string) :
  Str.starts_with_digit rest = false -> Str.digits_value acc rest = acc.
Proof.
  destruct rest as [| c rest]; [reflexivity |].
  cbn [Str.starts_with_digit Str.digits_value]. intros H. rewrite H. reflexivity.
Qed.

Lemma digits_of_uint (d : Decimal.uint) (rest : string) :
  Str.starts_with_digit rest = false ->
  forall acc,
    Str.digits_value acc (NilEmpty.string_of_uint d ++ rest)%string = uint_value acc d.
Proof.
  intros Hrest.
  induction d as [| d IH | d IH | d IH | d IH | d IH | d IH | d IH | d IH | d IH | d IH];
    intros acc; cbn [NilEmpty.string_of_uint String.append uint_value];
    [apply digits_value_stop; exact Hrest | ..];
    rewrite <- IH; reflexivity.
Qed.

Lemma string_of_uint_head (d : Decimal.uint) :
  d <> Decimal.Nil ->
  exists c s, NilEmpty.string_of_uint d = String c s /\ Str.isdigit c = true.
Proof.
  destruct d; intros H; [congruence | ..]; eexists; eexists; split; reflexivity.
Qed.

Lemma stoi_digit_start (c : ascii) (s : string) :
  Str.isdigit c = true ->
  Str.stoi (String c s) =
  if Int32.in_rangeb (Str.digits_value 0 (String c s))
  then inr (Str.digits_value 0 (String c s)) else inl Str.out_of_range.
Proof.
  intros Hd. destruct c as [b0 b1 b2 b3 b4 b5 b6 b7].
  destruct b0, b1, b2, b3, b4, b5, b6, b7; try discriminate Hd; reflexivity.
Qed.

Lemma stoi_minus_digit (c : ascii) (s : string) :
  Str.isdigit c = true ->
  Str.stoi (String "-" (String c s)) =
  if Int32.in_rangeb (- Str.digits_value 0 (String c s))
  then inr (- Str.digits_value 0 (String c s)) else inl Str.out_of_range.
Proof.
  intros Hd. destruct c as [b0 b1 b2 b3 b4 b5 b6 b7].
  destruct b0, b1, b2, b3, b4, b5, b6, b7; try discriminate Hd; reflexivity.
Qed.

Lemma stoi_show_int (n : Z) (rest : string) :
  Int32.in_range n ->
  Str.starts_with_digit rest = false ->
  Str.stoi (Str.show_int n ++ rest)%string = inr n.
Proof.
  intros Hn Hrest. apply Int32Facts.in_rangeb_spec in Hn.
  unfold Str.show_int. destruct n as [| p | p]; cbn [Z.to_int NilZero.string_of_int].
  - change (Str.stoi (String "0" rest) = inr 0).
    rewrite stoi_digit_start by reflexivity.
    change (Str.digits_value 0 (String "0" rest)) with (Str.digits_value 0 rest).
    rewrite (digits_value_stop 0 rest Hrest). reflexivity.
  - pose proof (DecimalPos.Unsigned.to_uint_nonnil p) as Hnil.
    destruct (string_of_uint_head _ Hnil) as (c & s & Hs & Hc).
    assert (Hv : Str.digits_value 0 (NilEmpty.string_of_uint (Pos.to_uint p) ++ rest)%string
                 = Z.pos p)
      by (rewrite (digits_of_uint _ rest Hrest), to_uint_value; reflexivity).
    unfold NilZero.string_of_uint.
    destruct (Pos.to_uint p) eqn:Hp; try congruence;
      rewrite Hs in *; cbn [String.append] in *;
      rewrite (stoi_digit_start c _ Hc), Hv, Hn; reflexivity.
  - pose proof (DecimalPos.Unsigned.to_uint_nonnil p) as Hnil.
    destruct (string_of_uint_head _ Hnil) as (c & s & Hs & Hc).
    assert (Hv : Str.digits_value 0 (NilEmpty.string_of_uint (Pos.to_uint p) ++ rest)%string
                 = Z.pos p)
      by (rewrite (digits_of_uint _ rest Hrest), to_uint_value; reflexivity).
    unfold NilZero.string_of_uint.
    destruct (Pos.to_uint p) eqn:Hp; try congruence;
      rewrite Hs in *; cbn [String.append] in *;
      rewrite (stoi_minus_digit c _ Hc), Hv; change (- Z.pos p) with (Z.neg p);
      rewrite Hn; reflexivity.
Qed.

Lemma find_from_after (tag rest : string) :
  forall i,
    Str.find_from "|" tag i = None ->
    Str.find_from "|" (tag ++ String "|" rest)%string i = Some (i + String.length tag)%nat.
Proof.
  induction tag as [| c tag IH]; intros i H.
  - cbn. f_equal. lia.
  - cbn [Str.find_from String.append String.length] in *.
    destruct (Ascii.eqb c "|"); [discriminate |].
    rewrite (IH _ H). f_equal. lia.
Qed.

Lemma drop_after (tag rest : string) :
  Str.drop (String.length tag + 1) (tag ++ String "|" rest)%string = rest.
Proof.
  induction tag as [| c tag IH]; [reflexivity |]. cbn [String.length String.append]. exact IH.
Qed.

Lemma length_after (tag rest : string) :
  (String.length tag + 1 <= String.length (tag ++ String "|" rest)%string)%nat.
Proof.
  induction tag as [| c tag IH]; cbn [String.length String.append]; lia.
Qed.

Lemma decode_round_trip (tag rest : string) (n : Z) :
  Int32.in_range n ->
  Str.find "|" tag = None ->
  Str.starts_with_digit rest = false ->
  decode (tag ++ String "|" (Str.show_int n ++ rest))%string = inr n.
Proof.
  intros Hn Htag Hrest. unfold decode.
  replace (Str.empty (tag ++ String "|" (Str.show_int n ++ rest))%string) with false
    by (destruct tag; reflexivity).
  unfold Str.find. rewrite (find_from_after tag _ 0 Htag). cbn [Nat.add].
  unfold Str.substr.
  replace (String.length tag + 1 <=? String.length (tag ++ String "|" (Str.show_int n ++ rest)))%nat
    with true by (symmetry; apply Nat.leb_le; apply length_after).
  rewrite drop_after. apply stoi_show_int; assumption.
Qed.


(** ** A well-formed reply, end to end *)

Lemma nzhead_leading (d : Decimal.uint) :
  Decimal.nzhead d = Decimal.Nil \/ leading_nonzero (Decimal.nzhead d) = true.
Proof.
  induction d; cbn [Decimal.nzhead]; try (right; reflexivity); [left; reflexivity | exact IHd].
Qed.

Lemma to_uint_leading (p : positive) : leading_nonzero (Pos.to_uint p) = true.
Proof.
  pose proof (DecimalPos.Unsigned.to_of (Pos.to_uint p)) as H.
  rewrite DecimalPos.Unsigned.of_to in H. cbn [N.to_uint] in H.
  pose proof (DecimalPos.Unsigned.to_uint_nonzero p) as Hz.
  rewrite H in *. unfold Decimal.unorm in *.
  destruct (nzhead_leading (Pos.to_uint p)) as [Hn | Hl].
  - rewrite Hn in Hz. congruence.
  - destruct (Decimal.nzhead (Pos.to_uint p)); try discriminate Hl; reflexivity.
Qed.

Lemma uint_value_lower (d : Decimal.uint) :
  forall acc, 0 <= acc -> acc * 10 ^ Z.of_nat (Decimal.nb_digits d) <= uint_value acc d.
Proof.
  induction d as [| d IH | d IH | d IH | d IH | d IH | d IH | d IH | d IH | d IH | d IH];
    intros acc Hacc; cbn [Decimal.nb_digits uint_value];
    [cbn; lia | ..];
    rewrite Nat2Z.inj_succ, Z.pow_succ_r by lia;
    (etransitivity; [| apply IH; lia]);
    pose proof (Z.pow_nonneg 10 (Z.of_nat (Decimal.nb_digits d)) ltac:(lia)); nia.
Qed.

Lemma length_string_of_uint (d : Decimal.uint) :
  String.length (NilEmpty.string_of_uint d) = Decimal.nb_digits d.
Proof.
  induction d; cbn [NilEmpty.string_of_uint String.length Decimal.nb_digits];
    [reflexivity | ..]; rewrite IHd; reflexivity.
Qed.

Lemma nul_free_string_of_uint (d : Decimal.uint) :
  nul_free (NilEmpty.string_of_uint d) = true.
Proof.
  induction d; cbn [NilEmpty.string_of_uint]; [reflexivity | ..]; cbn [nul_free];
    rewrite IHd; reflexivity.
Qed.

Lemma digits_of_pos (p : positive) :
  Z.pos p <= Int32.INT_MAX + 1 ->
  (Decimal.nb_digits (Pos.to_uint p) <= 10)%nat.
Proof.
  intros Hp. pose proof (to_uint_leading p) as Hl. pose proof (to_uint_value p) as Hv.
  destruct (Pos.to_uint p) as [| d | d | d | d | d | d | d | d | d | d];
    try discriminate Hl; cbn [uint_value] in Hv; cbn [Decimal.nb_digits];
    match type of Hv with uint_value ?a d = _ =>
      pose proof (uint_value_lower d a ltac:(lia)) as Hlow
    end;
    (destruct (Nat.le_gt_cases (Decimal.nb_digits d) 9) as [Hle | Hgt]; [lia |]);
    exfalso;
    assert (Hpow : 10 ^ 10 <= 10 ^ Z.of_nat (Decimal.nb_digits d))
      by (apply Z.pow_le_mono_r; lia);
    change (10 ^ 10) with 10000000000 in Hpow;
    unfold Int32.INT_MAX in Hp; nia.
Qed.

Lemma show_int_shape (n : Z) :
  Int32.in_range n ->
  (String.length (Str.show_int n) <= 11)%nat /\ nul_free (Str.show_int n) = true.
Proof.
  unfold Int32.in_range, Int32.INT_MIN. intros Hn.
  pose proof nul_free_string_of_uint as Hfree. pose proof length_string_of_uint as Hlen.
  unfold Str.show_int. destruct n as [| p | p]; cbn [Z.to_int NilZero.string_of_int].
  - split; [cbn; lia | reflexivity].
  - pose proof (digits_of_pos p ltac:(lia)) as Hd.
    pose proof (DecimalPos.Unsigned.to_uint_nonnil p) as Hnil.
    unfold NilZero.string_of_uint.
    destruct (Pos.to_uint p) eqn:Hp; try congruence;
      rewrite Hlen, Hfree; split; (lia || reflexivity).
  - pose proof (digits_of_pos p ltac:(unfold Int32.INT_MAX; lia)) as Hd.
    pose proof (DecimalPos.Unsigned.to_uint_nonnil p) as Hnil.
    unfold NilZero.string_of_uint.
    destruct (Pos.to_uint p) eqn:Hp; try congruence;
      cbn [String.length nul_free]; rewrite Hlen, Hfree; split; (lia || reflexivity).
Qed.

Lemma length_append (a b : string) :
  String.length (a ++ b)%string = (String.length a + String.length b)%nat.
Proof. induction a as [| c a IH]; [reflexivity |]. cbn. rewrite IH. reflexivity. Qed.

Lemma nul_free_append (a b : string) :
  nul_free a = true -> nul_free b = true -> nul_free (a ++ b)%string = true.
Proof.
  induction a as [| c a IH]; intros Ha Hb; [exact Hb |].
  cbn [nul_free String.append] in *. apply andb_true_iff in Ha. destruct Ha as (Hc & Ha).
  rewrite Hc. apply IH; assumption.
Qed.

(** X15. A well-formed reply is obeyed, for every [int]: when the peer
    answers the state message with the line [ACTION|n], the tick runs
    the whole exchange of X1 with the wheel command of n (which, by the
    action table, is the forward command for every n outside 1, 2, 3). *)
Theorem reply_is_executed (s : Sensors) (w : World) (n : Z) (pending : list string) :
  Running (this w) ->
  usable (this w) ->
  0 < hd (-1) (send_ret (os w)) ->
  Int32.in_range n ->
  recv_ret (os w) = framed ("ACTION|" ++ Str.show_int n) :: pending ->
  ControlStep s w =
  Returns tt
    {| this := local_update (this w) s;
       os := pop_recv (pop_send (pop_recv (pop_send (os w))));
       trace := trace w ++
                [Send (m_nSocket (this w)) (state_line (this w) s);
                 Recv (m_nSocket (this w));
                 wheel_command (m_fVelocity (this w)) n;
                 Send (m_nSocket (this w)) (reward_line (this w) s);
                 Recv (m_nSocket (this w))] |}.
Proof.
  intros Hrun Hu Hsend Hn Hr.
  apply wire_sequence_run; try assumption.
  rewrite Hr. cbn [hd].
  destruct (show_int_shape n Hn) as (Hlen & Hfree).
  rewrite received_framed.
  - pose proof (decode_round_trip "ACTION" "" n Hn eq_refl eq_refl) as H.
    replace (Str.show_int n ++ "")%string with (Str.show_int n) in H; [exact H |].
    clear. induction (Str.show_int n) as [| c x IH]; [reflexivity |].
    cbn. rewrite <- IH. reflexivity.
  - apply (nul_free_append "ACTION|" _ eq_refl Hfree).
  - rewrite length_append. cbn [String.length]. lia.
Qed.


(** X13. Whatever [recv] delivers, and whatever the state of the
    connection, [ReceiveMessage] returns, does not touch the object, and
    hands its caller a message of at most 4095 characters without NUL. *)
Theorem ReceiveMessage_bounds (w : World) :
  exists message w',
    ReceiveMessage w = Returns message w' /\
    this w' = this w /\
    Z.of_nat (String.length message) <= 4095 /\
    nul_free message = true.
Proof.
  destruct (ReceiveMessage_run w) as (w' & E & T & _).
  eexists. exists w'. split; [exact E |]. split; [exact T |].
  destruct ((m_nSocket (this w) <? 0) || negb (m_bConnected (this w))).
  - split; [cbn; lia | reflexivity].
  - apply received_message_bounds.
Qed.

(** X14. The action round trip: for every [int] n, when the message
    received holds, after its first delimiter, the text a stream prints
    for n, the action request returns n, whatever stands before the
    delimiter (the tag is not checked) and whatever follows the number,
    as long as that does not start with a digit. *)
Theorem action_request_round_trip (state : list F32.float) (w : World)
        (tag rest : string) (n : Z) :
  usable (this w) ->
  0 < hd (-1) (send_ret (os w)) ->
  Int32.in_range n ->
  Str.find "|" tag = None ->
  Str.starts_with_digit rest = false ->
  received_message (hd "" (recv_ret (os w)))
    = (tag ++ String "|" (Str.show_int n ++ rest))%string ->
  exists w', GetActionFromQNetwork state w = Returns n w'.
Proof.
  intros Hu Hsend Hn Htag Hrest Hr.
  rewrite (GetActionFromQNetwork_exact state w Hu).
  apply Z.ltb_lt in Hsend. rewrite Hsend. cbv zeta.
  rewrite Hr, (decode_round_trip tag rest n Hn Htag Hrest).
  eexists. reflexivity.
Qed.

End Properties.

(** * The controller on the concrete host *)

Module Examples.

Import ArgosDouble.
Local Open Scope list_scope.

(** ** Previous position on a goal tick *)

(** C2 fails as stated.  The robot stands on the goal at (18, 18) and
    its previous position is the origin: the evaluation answers
    [(+10.0f, true)] and leaves the world as it was, so the previous
    position is still the origin and not the current position. *)
Lemma C2_counterexample :
  goal_reached (offline 500) on_goal = true /\
  CalculateReward on_goal (world (offline 500) no_os)
    = Returns (F32.ten, true) (world (offline 500) no_os) /\
  m_cPreviousPosition (offline 500) = origin /\
  m_cPreviousPosition (offline 500) <> currentPos on_goal.
Proof.
  assert (G : goal_reached (offline 500) on_goal = true) by (vm_compute; reflexivity).
  split; [exact G |]. split; [| split].
  - rewrite CalculateReward_run. unfold evaluate, world. cbn [this os trace].
    rewrite G. reflexivity.
  - reflexivity.
  - vm_compute. discriminate.
Qed.

(** ** Replies that do not parse *)

(** C3, at the reply [ACTION|abc]: the connection is up, the state is
    sent, the reply has a delimiter but no digit after it, and
    [std::stoi] throws [std::invalid_argument] out of the action request
    and out of the tick; no actuator command is issued. *)
Theorem C3_unparseable_reply_throws :
  decode "ACTION|abc" = inl Str.invalid_argument /\
  (exists w', GetActionFromQNetwork [] garbled = Throws Str.invalid_argument w') /\
  (exists w',
      ControlStep (at_ 1 0) garbled = Throws Str.invalid_argument w' /\
      filter (fun e => negb (is_traffic e)) (trace w') = []).
Proof.
  assert (Ha : action_reply garbled = inl Str.invalid_argument) by (vm_compute; reflexivity).
  split; [vm_compute; reflexivity |]. split.
  - destruct (GetActionFromQNetwork_run [] garbled) as (w' & E & _).
    rewrite Ha in E. exists w'. exact E.
  - destruct (ControlStep_running (at_ 1 0) garbled) as (w' & H).
    { split; [vm_compute; reflexivity | reflexivity]. }
    rewrite Ha in H. destruct H as (E & _ & evs & Tr & F).
    exists w'. split; [exact E |]. rewrite Tr. cbn [garbled world trace app].
    apply no_command_among_traffic. exact F.
Qed.

Example decode_too_large : decode "ACTION|99999999999" = inl Str.out_of_range.
Proof. vm_compute. reflexivity. Qed.

Example decode_empty_number : decode "ACTION|" = inl Str.invalid_argument.
Proof. vm_compute. reflexivity. Qed.

Example decode_garbage : decode "garbage" = inr 0.
Proof. vm_compute. reflexivity. Qed.

Example decode_action_2 : decode "ACTION|2" = inr 2.
Proof. vm_compute. reflexivity. Qed.

Example decode_action_7 : decode "ACTION|7" = inr 7.
Proof. vm_compute. reflexivity. Qed.

(** ** The robot's id *)

(** C4, at the name [fb12]: the trailing digits spell 12, but
    [find_last_of] points at the last digit, the text handed to
    [std::stoi] is [2], and the id is 2. *)
Theorem C4_id_is_last_digit_only :
  trailing_number "fb12" = Some 12 /\
  Str.find_last_of "0123456789" "fb12" = Some 3%nat /\
  Str.substr "fb12" 3 = inr "2"%string /\
  exists w',
    Init "fb12" default_configuration (at_ 0 0) (world (QSwarmController_new origin) no_os)
    = Returns tt w' /\
    m_nRobotIdNum (this w') = 2.
Proof.
  split; [vm_compute; reflexivity |]. split; [vm_compute; reflexivity |].
  split; [vm_compute; reflexivity |].
  destruct (Init_run "fb12" default_configuration (at_ 0 0)
              (world (QSwarmController_new origin) no_os)) as (w' & E & _ & Hid).
  exists w'. split; [exact E |]. rewrite Hid. vm_compute. reflexivity.
Qed.

Example id_of_fb0 : robot_id "fb0" 0 = 0 /\ trailing_number "fb0" = Some 0.
Proof. split; vm_compute; reflexivity. Qed.

Example id_of_fb7 : robot_id "fb7" 0 = 7 /\ trailing_number "fb7" = Some 7.
Proof. split; vm_compute; reflexivity. Qed.

Example id_of_fb10 : robot_id "fb10" 0 = 0 /\ trailing_number "fb10" = Some 10.
Proof. split; vm_compute; reflexivity. Qed.

Example id_without_digit : robot_id "robot" 0 = 0 /\ trailing_number "robot" = None.
Proof. split; vm_compute; reflexivity. Qed.

(** ** Seven uneventful steps *)

Lemma offline_walk (n : nat) :
  (1 <= n <= 1000)%nat ->
  uneventful (offline (Z.of_nat n)) origin (walk n) = true ->
  exists w',
    run_ticks (walk n) (world (offline (Z.of_nat n)) no_os) = Returns tt w' /\
    this w' = after_uneventful (offline (Z.of_nat n)) (walk n).
Proof.
  intros Hn Hun. apply run_ticks_uneventful.
  - split; [reflexivity | reflexivity].
  - unfold Int32.in_range, Int32.INT_MIN, Int32.INT_MAX. cbn [world this offline m_nMaxSteps set_nMaxSteps]. lia.
  - cbn. lia.
  - reflexivity.
  - exact Hun.
  - unfold walk. rewrite length_map, length_seq. cbn. lia.
Qed.

(** C7 fails as stated.  With a step limit of 7, seven ticks that
    neither reach the goal nor collide end the episode, but the
    accumulated reward is the float 11744052 * 2^-24, one unit in the
    last place away from both [-0.1f * 7] and the float nearest to -0.7,
    which are 11744051 * 2^-24. *)
Lemma C7_counterexample :
  fresh_episode (offline 7) /\
  uneventful (offline 7) (m_cPreviousPosition (offline 7)) (walk 7) = true /\
  Z.of_nat (List.length (walk 7)) = m_nMaxSteps (offline 7) /\
  exists w',
    run_ticks (walk 7) (world (offline 7) no_os) = Returns tt w' /\
    m_bEpisodeDone (this w') = true /\
    m_fEpisodeReward (this w') = S754_finite true 11744052 (-24) /\
    F32.mul F32.minus_tenth (F32.of_Z 7) = S754_finite true 11744051 (-24) /\
    F32.div (F32.of_Z (-7)) (F32.of_Z 10) = S754_finite true 11744051 (-24) /\
    m_fEpisodeReward (this w')
      <> F32.mul F32.minus_tenth (F32.of_Z (m_nMaxSteps (offline 7))).
Proof.
  assert (Hun : uneventful (offline 7) origin (walk 7) = true) by (vm_compute; reflexivity).
  split; [repeat split |]. split; [exact Hun |]. split; [reflexivity |].
  destruct (offline_walk 7) as (w' & E & T); [lia | exact Hun |].
  exists w'. split; [exact E |]. rewrite T.
  split; [vm_compute; reflexivity |]. split; [vm_compute; reflexivity |].
  split; [vm_compute; reflexivity |]. split; [vm_compute; reflexivity |].
  vm_compute. discriminate.
Qed.

(** With the constructor's limit of 500 steps the sum is
    13107150 * 2^-18, about -49.99981, and not -50. *)
Example five_hundred_steps :
  add_penalties 500 F32.zero = S754_finite true 13107150 (-18) /\
  F32.mul F32.minus_tenth (F32.of_Z 500) = S754_finite true 13107200 (-18).
Proof. split; vm_compute; reflexivity. Qed.

(** ** Instances of the conditional theorems *)

Lemma C5_witness :
  m_nEpisode (this finished) >= m_nMaxEpisodes (this finished) /\
  ControlStep (at_ 1 0) finished
  = Returns tt {| this := this finished; os := os finished;
                  trace := trace finished ++ [stop_command] |}.
Proof.
  assert (H : m_nEpisode (this finished) >= m_nMaxEpisodes (this finished))
    by (vm_compute; discriminate).
  split; [exact H |].
  apply (proj1 (C5_finished_is_permanent finished H)).
Defined.

Lemma C6_witness :
  ints_in_range (this episode_over) /\
  m_nEpisode (this (world_of (ControlStep (at_ 1 0) episode_over))) = 1.
Proof.
  assert (H : ints_in_range (this episode_over)).
  { unfold ints_in_range, Int32.in_range, Int32.INT_MIN, Int32.INT_MAX.
    repeat split; vm_compute; discriminate. }
  split; [exact H |].
  rewrite (proj1 (C6_episode_reset (at_ 1 0) episode_over H)).
  - reflexivity.
  - split; [vm_compute; reflexivity | reflexivity].
Defined.

Lemma C7_witness :
  forallb decodable (recv_ret (os served)) = false /\
  requests_return (this served) (os served) (List.length (walk 3)) = true /\
  Z.of_nat (List.length (walk 3)) = m_nMaxSteps (this served) /\
  exists w',
    run_ticks (walk 3) served = Returns tt w' /\
    m_bEpisodeDone (this w') = true /\
    m_nSteps (this w') = m_nMaxSteps (this served) /\
    m_fEpisodeReward (this w') = add_penalties (List.length (walk 3)) F32.zero /\
    (m_nMaxSteps (this served) <= 6 ->
     m_fEpisodeReward (this w')
       = F32.mul F32.minus_tenth (F32.of_Z (m_nMaxSteps (this served))) /\
     m_fEpisodeReward (this w')
       = F32.div (F32.of_Z (- m_nMaxSteps (this served))) (F32.of_Z 10)).
Proof.
  assert (H1 : ints_in_range (this served)).
  { unfold ints_in_range, Int32.in_range, Int32.INT_MIN, Int32.INT_MAX.
    repeat split; vm_compute; discriminate. }
  assert (H2 : m_nEpisode (this served) < m_nMaxEpisodes (this served))
    by (vm_compute; reflexivity).
  assert (H3 : fresh_episode (this served)) by (repeat split).
  assert (H4 : requests_return (this served) (os served) (List.length (walk 3)) = true)
    by (vm_compute; reflexivity).
  assert (H5 : uneventful (this served) (m_cPreviousPosition (this served)) (walk 3) = true)
    by (vm_compute; reflexivity).
  assert (H6 : 1 <= m_nMaxSteps (this served)) by (vm_compute; discriminate).
  assert (H7 : Z.of_nat (List.length (walk 3)) = m_nMaxSteps (this served))
    by reflexivity.
  split; [vm_compute; reflexivity |]. split; [exact H4 |]. split; [exact H7 |].
  exact (proj1 (C7_step_limit (walk 3) served H1 H2 H3 H4 H5 H6 H7)).
Defined.

Lemma C8_witness :
  Running (this (world (offline 500) no_os)) /\
  hiccup (world (offline 500) no_os) = Some Disconnected /\
  exists w',
    ControlStep (at_ 1 0) (world (offline 500) no_os) = Returns tt w' /\
    this w' = local_update (offline 500) (at_ 1 0).
Proof.
  assert (Hrun : Running (this (world (offline 500) no_os)))
    by (split; [vm_compute; reflexivity | reflexivity]).
  assert (Hh : hiccup (world (offline 500) no_os) = Some Disconnected) by reflexivity.
  split; [exact Hrun |]. split; [exact Hh |].
  destruct (C8_hiccups_are_absorbed (at_ 1 0) (world (offline 500) no_os) Disconnected
              Hrun Hh) as (_ & _ & w' & E & T & _).
  exists w'. split; [exact E | exact T].
Defined.

(** ** Instances of the further properties *)

Lemma online_running (o : OS) : Running (this (world (online 500) o)).
Proof. split; [vm_compute; reflexivity | reflexivity]. Qed.

Lemma online_usable (o : OS) : usable (this (world (online 500) o)).
Proof. split; [vm_compute; discriminate | reflexivity]. Qed.

Lemma tick_wire_sequence_witness :
  decode (received_message (hd "" (recv_ret (os (answering "ACTION|2"))))) = inr 2 /\
  ControlStep (at_ 1 0) (answering "ACTION|2") =
  Returns tt
    {| this := local_update (this (answering "ACTION|2")) (at_ 1 0);
       os := pop_recv (pop_send (pop_recv (pop_send (os (answering "ACTION|2")))));
       trace := trace (answering "ACTION|2") ++
                [Send (m_nSocket (this (answering "ACTION|2")))
                      ("STATE|" ++ Str.show_int (m_nRobotIdNum (this (answering "ACTION|2")))
                         ++ "|" ++ show_float (float_of_Real (GetX (Position (at_ 1 0))))
                         ++ "|" ++ show_float (float_of_Real (GetY (Position (at_ 1 0))))
                         ++ "|" ++ show_float (float_of_Real
                                      (GetX (m_cGoalPosition (this (answering "ACTION|2")))))
                         ++ "|" ++ show_float (float_of_Real
                                      (GetY (m_cGoalPosition (this (answering "ACTION|2")))))
                         ++ String.concat "" (map (fun v => "|" ++ show_float v)
                                                  (map float_of_Real (Readings (at_ 1 0))))
                         ++ String Str.newline "")%string;
                 Recv (m_nSocket (this (answering "ACTION|2")));
                 wheel_command (m_fVelocity (this (answering "ACTION|2"))) 2;
                 Send (m_nSocket (this (answering "ACTION|2")))
                      ("REWARD|" ++ Str.show_int (m_nRobotIdNum (this (answering "ACTION|2")))
                         ++ "|" ++ show_float (fst (evaluate (this (answering "ACTION|2")) (at_ 1 0)))
                         ++ "|" ++ (if snd (evaluate (this (answering "ACTION|2")) (at_ 1 0))
                                    then "1" else "0")
                         ++ String Str.newline "")%string;
                 Recv (m_nSocket (this (answering "ACTION|2")))] |}.
Proof.
  assert (H3 : 0 < hd (-1) (send_ret (os (answering "ACTION|2"))))
    by (vm_compute; reflexivity).
  assert (H4 : decode (received_message (hd "" (recv_ret (os (answering "ACTION|2")))))
               = inr 2) by (vm_compute; reflexivity).
  split; [exact H4 |].
  exact (tick_wire_sequence (at_ 1 0) (answering "ACTION|2") 2
           (online_running _) (online_usable _) H3 H4).
Defined.

Lemma tick_after_failed_state_send_witness :
  hd (-1) (send_ret (os send_fails)) <= 0 /\
  ControlStep (at_ 1 0) send_fails =
  Returns tt
    {| this := local_update (this send_fails) (at_ 1 0);
       os := pop_recv (pop_send (pop_send (os send_fails)));
       trace := trace send_fails ++
                [Send (m_nSocket (this send_fails)) (state_line (this send_fails) (at_ 1 0));
                 wheel_command (m_fVelocity (this send_fails)) 0;
                 Send (m_nSocket (this send_fails)) (reward_line (this send_fails) (at_ 1 0));
                 Recv (m_nSocket (this send_fails))] |}.
Proof.
  assert (H : hd (-1) (send_ret (os send_fails)) <= 0) by (vm_compute; discriminate).
  split; [exact H |].
  exact (tick_after_failed_state_send (at_ 1 0) send_fails
           (online_running _) (online_usable _) H).
Defined.

Lemma tick_that_throws_witness :
  ControlStep (at_ 1 0) garbled =
  Throws Str.invalid_argument
    {| this := set_nSteps (Int32.incr (m_nSteps (this garbled))) (this garbled);
       os := pop_recv (pop_send (os garbled));
       trace := trace garbled ++
                [Send (m_nSocket (this garbled)) (state_line (this garbled) (at_ 1 0));
                 Recv (m_nSocket (this garbled))] |}.
Proof.
  apply (tick_that_throws (at_ 1 0) garbled Str.invalid_argument).
  - apply online_running.
  - apply online_usable.
  - vm_compute. reflexivity.
  - vm_compute. reflexivity.
Defined.

Lemma disconnected_run_witness :
  exists w' evs,
    run_ticks (walk 3) (world (offline 500) no_os) = Returns tt w' /\
    m_bConnected (this w') = false /\
    trace w' = trace (world (offline 500) no_os) ++ evs /\
    forallb is_wheel evs = true /\ List.length evs = List.length (walk 3) /\
    send_ret (os w') = send_ret (os (world (offline 500) no_os)) /\
    recv_ret (os w') = recv_ret (os (world (offline 500) no_os)).
Proof.
  exact (disconnected_run (walk 3) (world (offline 500) no_os) eq_refl).
Defined.

Lemma offline_counters_ok : counters_ok (this (world (offline 7) no_os)).
Proof.
  unfold counters_ok, ints_in_range, Int32.in_range, Int32.INT_MIN, Int32.INT_MAX.
  repeat split; try (vm_compute; discriminate). intros _. right. reflexivity.
Qed.

Lemma counters_stay_in_range_witness :
  exists w',
    run_ticks (walk 7) (world (offline 7) no_os) = Returns tt w' /\
    counters_ok (this w').
Proof.
  destruct (offline_walk 7) as (w' & E & _); [lia | vm_compute; reflexivity |].
  exists w'. split; [exact E |].
  exact (proj1 (counters_stay_in_range (walk 7) (world (offline 7) no_os) w'
                  offline_counters_ok E)).
Defined.

Lemma episode_end_then_reset_witness :
  exists w1 w2,
    ControlStep on_goal (world (offline 500) no_os) = Returns tt w1 /\
    m_bEpisodeDone (this w1) = true /\
    ControlStep (at_ 1 0) w1 = Returns tt w2 /\
    m_nEpisode (this w2) = 1 /\ m_bEpisodeDone (this w2) = false /\
    m_cPreviousPosition (this w2) = currentPos (at_ 1 0).
Proof.
  assert (Hrun : Running (this (world (offline 500) no_os)))
    by (split; [vm_compute; reflexivity | reflexivity]).
  assert (Hints : ints_in_range (this (world (offline 500) no_os))).
  { unfold ints_in_range, Int32.in_range, Int32.INT_MIN, Int32.INT_MAX.
    repeat split; vm_compute; discriminate. }
  pose proof (disconnected_tick on_goal (world (offline 500) no_os) Hrun eq_refl) as E.
  assert (Hdone : m_bEpisodeDone (local_update (offline 500) on_goal) = true)
    by (vm_compute; reflexivity).
  eexists. eexists. split; [exact E |]. split; [exact Hdone |].
  split; [exact (episode_end_then_reset on_goal (at_ 1 0) _ _ Hints Hrun E Hdone) |].
  split; [reflexivity |]. split; reflexivity.
Defined.

Lemma silent_after_Destroy_witness :
  exists w1 w' evs,
    Destroy (world (online 500) no_os) = Returns tt w1 /\
    run_ticks (walk 3) w1 = Returns tt w' /\
    trace w' = trace w1 ++ evs /\
    forallb is_wheel evs = true /\ List.length evs = List.length (walk 3).
Proof.
  apply (silent_after_Destroy (walk 3) (world (online 500) no_os)).
  intros _. vm_compute. discriminate.
Defined.

Lemma receive_undoes_send_witness :
  ReceiveMessage (answering "ACTION|2") =
  Returns "ACTION|2"%string
    {| this := this (answering "ACTION|2"); os := pop_recv (os (answering "ACTION|2"));
       trace := trace (answering "ACTION|2")
                ++ [Recv (m_nSocket (this (answering "ACTION|2")))] |}.
Proof.
  apply (receive_undoes_send "ACTION|2" [line "ACK"] (answering "ACTION|2")).
  - apply online_usable.
  - reflexivity.
  - vm_compute. reflexivity.
  - reflexivity.
Defined.

Lemma action_request_round_trip_witness :
  exists w', GetActionFromQNetwork [] (answering "REWARD|-17 ok") = Returns (-17) w'.
Proof.
  apply (action_request_round_trip [] (answering "REWARD|-17 ok") "REWARD" " ok" (-17)).
  - apply online_usable.
  - vm_compute. reflexivity.
  - unfold Int32.in_range, Int32.INT_MIN, Int32.INT_MAX. lia.
  - reflexivity.
  - reflexivity.
  - vm_compute. reflexivity.
Defined.

Lemma reply_is_executed_witness :
  ControlStep (at_ 1 0) (answering "ACTION|7") =
  Returns tt
    {| this := local_update (this (answering "ACTION|7")) (at_ 1 0);
       os := pop_recv (pop_send (pop_recv (pop_send (os (answering "ACTION|7")))));
       trace := trace (answering "ACTION|7") ++
                [Send (m_nSocket (this (answering "ACTION|7")))
                      (state_line (this (answering "ACTION|7")) (at_ 1 0));
                 Recv (m_nSocket (this (answering "ACTION|7")));
                 wheel_command (m_fVelocity (this (answering "ACTION|7"))) 7;
                 Send (m_nSocket (this (answering "ACTION|7")))
                      (reward_line (this (answering "ACTION|7")) (at_ 1 0));
                 Recv (m_nSocket (this (answering "ACTION|7")))] |}.
Proof.
  apply (reply_is_executed (at_ 1 0) (answering "ACTION|7") 7 [line "ACK"]).
  - apply online_running.
  - apply online_usable.
  - vm_compute. reflexivity.
  - unfold Int32.in_range, Int32.INT_MIN, Int32.INT_MAX. lia.
  - reflexivity.
Defined.


(** ** Connecting and configuring *)

(** The server accepts the third attempt: two failed attempts with their
    pauses, the successful one, and nothing after it; the fourth result
    is still pending. *)
Example connects_at_third_attempt :
  exists w',
    ConnectToQNetwork (world (QSwarmController_new origin) third_time_lucky) = Returns true w' /\
    trace w' = [Socket; Connect 3; Sleep; Connect 3; Sleep; Connect 3] /\
    connect_ret (os w') = [0; -1] /\
    m_bConnected (this w') = true /\
    m_nSocket (this w') = 3.
Proof.
  destruct (connect_exact (world (QSwarmController_new origin) third_time_lucky))
    as (k & w' & E & T & O & Tr & Hf & Hs & _).
  change (will_connect (os (world (QSwarmController_new origin) third_time_lucky)))
    with true in *.
  change (next_socket (os (world (QSwarmController_new origin) third_time_lucky)))
    with 3 in *.
  change (connect_ret (os (world (QSwarmController_new origin) third_time_lucky)))
    with [-1; -1; 0; 0; -1] in *.
  destruct (Hs eq_refl) as (_ & Hk & Hn).
  assert (Hk2 : k = 2%nat).
  { destruct k as [| [| [| k]]]; [discriminate Hn | discriminate Hn | reflexivity |].
    exfalso. apply (Hf 2%nat); [lia | reflexivity]. }
  subst k. exists w'. split; [exact E |]. split; [exact Tr |].
  rewrite O, T. split; [reflexivity |]. split; reflexivity.
Qed.

(** Built with the default argument evaluated first, [Init] leaves the
    goal of a configuration without goal attributes where the constructor
    put it, at the origin. *)
Example Init_without_goal_attributes :
  exists w',
    Init "fb0" default_configuration (at_ 0 0) (world (QSwarmController_new origin) no_os)
    = Returns tt w' /\
    m_cGoalPosition (this w') = origin.
Proof.
  destruct (Init_exact "fb0" default_configuration (at_ 0 0)
              (world (QSwarmController_new origin) no_os)) as (w' & E & Hok & _).
  exists w'. split; [exact E |]. rewrite (Hok eq_refl). reflexivity.
Qed.

(** An unreadable attribute makes [Init] throw before it opens a socket. *)
Example Init_unreadable_attribute :
  exists w',
    Init "fb0" unreadable_velocity (at_ 0 0) (world (QSwarmController_new origin) no_os)
    = Throws Str.CARGoSException w' /\
    trace w' = [].
Proof.
  destruct (Init_exact "fb0" unreadable_velocity (at_ 0 0)
              (world (QSwarmController_new origin) no_os)) as (w' & E & _ & Hbad & _).
  exists w'. split; [exact E |]. exact (proj2 (Hbad eq_refl)).
Qed.

End Examples.
